(** * Result-processing pipeline of [src/pages/Index.tsx]

    A shallow embedding of the [Index] component's data transformations:
    the normalisation of the service payload inside [analyzeHeadline], the
    component state and its handlers, the filtered and sorted view, and the
    CSV export.

    Two levels of data appear in the source and are kept apart here.
    The payload of the service is [any]: it is modelled by [JSValue], the
    values [JSON.parse] can build.  TypeScript's [as SentimentType] and the
    annotation [AnalysisResult[]] are erased before the program runs, so the
    objects built by [articles.map] hold whatever the payload held: they are
    modelled by [MappedResult].  The view and the export are modelled at the
    declared interface [AnalysisResult]; [asAnalysisResult] relates the two. *)

From Stdlib Require Import ZArith QArith Qabs Bool List Ascii String Lia.
From Stdlib Require Import Sorted Permutation.
From Stdlib Require Import DecimalString DecimalPos DecimalN.
Import ListNotations.
Local Open Scope string_scope.
Local Open Scope Z_scope.
Set Warnings "-register-all".

(* ================================================================= *)
(** ** JavaScript values *)

(** A JavaScript number as [JSON.parse] can produce it: a finite double,
    given by its exact rational value, or an infinity (the literal [1e999]
    overflows to [Infinity]).  [NaN] has no JSON literal.  Negative zero is
    not told apart from zero: no operation used here distinguishes them. *)
Inductive Number : Type :=
| Infinity (negative : bool)
| Finite (q : Q).

(** Strings are sequences of code units; Rocq's [string] restricts them to
    the code units below 256. *)
Inductive JSValue : Type :=
| JUndefined
| JNull
| JBool (b : bool)
| JNumber (n : Number)
| JString (s : string)
| JArray (elems : list JSValue)
| JObject (props : list (string * JSValue))
| JBuiltin (name : string).  (* a built-in function reached through a prototype *)

(** A [Date] object holds a time value in milliseconds, or [NaN]
    ("Invalid Date"). *)
Inductive Date : Type :=
| ValidDate (t : Z)
| InvalidDate.

(** What ECMAScript leaves to the implementation, or what needs the binary
    representation of a double. *)
Class Engine : Type := {
  Number_toString : Number -> string;      (* Number::toString *)
  Function_toString : string -> string;    (* source text of a built-in *)
  Date_parse : string -> option Z;         (* Date.parse, [None] for NaN *)
  toLocaleDateString : Date -> string;
  toLocaleTimeString : Date -> string
}.

(** An error monad for code that may throw: [None] is a thrown exception. *)
Notation "x <- a ;; b" :=
  (match a with Some x => b | None => None end)
  (at level 61, a at next level, right associativity).

Definition isZero (n : Number) : bool :=
  match n with
  | Infinity _ => false
  | Finite q => Qnum q =? 0
  end.

(** ToBoolean. *)
Definition truthy (v : JSValue) : bool :=
  match v with
  | JUndefined | JNull => false
  | JBool b => b
  | JNumber n => negb (isZero n)
  | JString s => negb (String.eqb s "")
  | JArray _ | JObject _ | JBuiltin _ => true
  end.

(** [x || y] *)
Definition or_else (x y : JSValue) : JSValue := if truthy x then x else y.

(** [x ?? y] *)
Definition nullish (x y : JSValue) : JSValue :=
  match x with
  | JUndefined | JNull => y
  | _ => x
  end.

Fixpoint lookup (k : string) (props : list (string * JSValue)) : option JSValue :=
  match props with
  | [] => None
  | (k', v) :: rest => if String.eqb k k' then Some v else lookup k rest
  end.

(** [v.k] for the property names this program reads ([articles], [summary],
    [title], [sentiment], [published], [polarity], [explanation], [link],
    [positive], [negative], [neutral]).  Reading a property of [undefined]
    or [null] throws a TypeError.  Of the names above only [link] is found
    on a prototype: [String.prototype.link]. *)
Definition get (v : JSValue) (k : string) : option JSValue :=
  match v with
  | JUndefined | JNull => None
  | JObject props =>
      Some (match lookup k props with Some x => x | None => JUndefined end)
  | JString _ => Some (if String.eqb k "link" then JBuiltin "link" else JUndefined)
  | _ => Some JUndefined
  end.

Section Conversions.
Context {E : Engine}.

(** ToString, as [String(v)] and template literals apply it.  An array is
    joined with commas, [undefined] and [null] elements giving the empty
    string.  A plain object gives ["[object Object]"], unless the payload
    gave it an own [toString] property, which is not callable: then
    neither [toString] nor [valueOf] yields a primitive and a TypeError is
    thrown. *)
Fixpoint ToString (v : JSValue) : option string :=
  match v with
  | JUndefined => Some "undefined"
  | JNull => Some "null"
  | JBool true => Some "true"
  | JBool false => Some "false"
  | JNumber n => Some (Number_toString n)
  | JString s => Some s
  | JArray elems =>
      let fix items (l : list JSValue) : option (list string) :=
        match l with
        | [] => Some []
        | x :: rest =>
            s <- match x with
                 | JUndefined | JNull => Some ""
                 | _ => ToString x
                 end;;
            ss <- items rest;;
            Some (s :: ss)
        end in
      ss <- items elems;;
      Some (String.concat "," ss)
  | JObject props =>
      match lookup "toString" props with
      | Some _ => None
      | None => Some "[object Object]"
      end
  | JBuiltin name => Some (Function_toString name)
  end.

(** *** [Number.prototype.toFixed(3)] *)

(** The integer [n] for which [n / 1000 - x] is as close to zero as
    possible, the larger one when there are two; [x >= 0]. *)
Definition nearest_thousandth (x : Q) : Z :=
  (2 * 1000 * Qnum x + Zpos (Qden x)) / (2 * Zpos (Qden x)).

Definition decimal_digits (n : Z) : string :=
  NilZero.string_of_uint (N.to_uint (Z.to_N n)).

Fixpoint zeros (k : nat) : string :=
  match k with
  | O => ""
  | S k' => String "0" (zeros k')
  end.

(** Steps 8 to 10 of the algorithm for [fractionDigits = 3]: pad to four
    digits, put the point before the last three. *)
Definition place_point (m : string) : string :=
  let k := String.length m in
  let m := if (k <=? 3)%nat then zeros (4 - k) ++ m else m in
  let k := String.length m in
  substring 0 (k - 3) m ++ "." ++ substring (k - 3) 3 m.

Definition toFixed3 (x : Number) : string :=
  match x with
  | Infinity _ => Number_toString x
  | Finite q =>
      let s := if Qnum q <? 0 then "-" else "" in
      let x := Qabs q in
      if Qle_bool (10 ^ 21) x
      then s ++ Number_toString (Finite x)
      else s ++ place_point (decimal_digits (nearest_thousandth x))
  end.

(** *** [new Date(value)] *)

Definition maxTime : Z := 8640000000000000.

(** TimeClip on an integral time value. *)
Definition TimeClipZ (t : Z) : Date :=
  if Z.abs t <=? maxTime then ValidDate t else InvalidDate.

(** TimeClip on a number: out of range gives NaN, otherwise the value is
    truncated towards zero. *)
Definition TimeClip (n : Number) : Date :=
  match n with
  | Infinity _ => InvalidDate
  | Finite q =>
      if Qle_bool (Qabs q) (inject_Z maxTime)
      then ValidDate (Z.quot (Qnum q) (Zpos (Qden q)))
      else InvalidDate
  end.

Definition parseDate (s : string) : Date :=
  match Date_parse s with
  | Some t => TimeClipZ t
  | None => InvalidDate
  end.

(** [new Date(v)]: a string is parsed, any other primitive is converted to
    a number, an object is first converted to a primitive, which for the
    values of a payload is its string. *)
Definition new_Date (v : JSValue) : option Date :=
  match v with
  | JUndefined => Some InvalidDate
  | JNull => Some (ValidDate 0)
  | JBool b => Some (ValidDate (if b then 1 else 0))
  | JNumber n => Some (TimeClip n)
  | JString s => Some (parseDate s)
  | JArray _ | JObject _ | JBuiltin _ =>
      s <- ToString v;; Some (parseDate s)
  end.

Definition getTime (d : Date) : option Z :=
  match d with
  | ValidDate t => Some t
  | InvalidDate => None
  end.

End Conversions.

(* ================================================================= *)
(** ** Records *)

(** The object literal returned by the callback of [articles.map]
    (lines 86-92), with the values it holds when the program runs. *)
Record MappedResult : Type := {
  m_headline : JSValue;
  m_sentiment : JSValue;
  m_timestamp : Date;
  m_explanation : JSValue;
  m_link : JSValue
}.

(** [type SentimentType = "positive" | "negative" | "neutral" | null] *)
Inductive Sentiment : Type := positive | negative | neutral.
Definition SentimentType : Type := option Sentiment.

(** [interface AnalysisResult]; an absent [link] is [None]. *)
Record AnalysisResult : Type := {
  headline : string;
  sentiment : SentimentType;
  timestamp : Date;
  explanation : string;
  link : option string
}.

Definition sentimentName (s : Sentiment) : string :=
  match s with
  | positive => "positive"
  | negative => "negative"
  | neutral => "neutral"
  end.

Definition asSentimentType (v : JSValue) : option SentimentType :=
  match v with
  | JNull => Some None
  | JString s =>
      if String.eqb s "positive" then Some (Some positive)
      else if String.eqb s "negative" then Some (Some negative)
      else if String.eqb s "neutral" then Some (Some neutral)
      else None
  | _ => None
  end.

(** The mapped object read at its declared type, when it has that type. *)
Definition asAnalysisResult (m : MappedResult) : option AnalysisResult :=
  h <- match m_headline m with JString s => Some s | _ => None end;;
  s <- asSentimentType (m_sentiment m);;
  e <- match m_explanation m with JString s => Some s | _ => None end;;
  l <- match m_link m with
       | JUndefined => Some None
       | JString s => Some (Some s)
       | _ => None
       end;;
  Some {| headline := h; sentiment := s; timestamp := m_timestamp m;
          explanation := e; link := l |}.

(* ================================================================= *)
(** ** Response normalisation (lines 72-93) *)

Section Normalizer.
Context {E : Engine}.

(** The text after ["Polarity score: "] (lines 81-83). *)
Definition polarityText (polarity : JSValue) : option string :=
  match polarity with
  | JNumber n => Some (toFixed3 n)
  | _ => ToString (nullish polarity (JString ""))
  end.

(** The callback of [articles.map], run when the clock reads [now]. *)
Definition mapArticle (now : Z) (a : JSValue) : option MappedResult :=
  s <- get a "sentiment";;
  let sentiment := or_else s (JString "neutral") in
  p <- get a "published";;
  ts <- (if truthy p then new_Date p else Some (ValidDate now));;
  e <- get a "explanation";;
  explanation <-
    (if truthy e then Some e
     else
       pol <- get a "polarity";;
       txt <- polarityText pol;;
       Some (JString ("Polarity score: " ++ txt)));;
  t <- get a "title";;
  l <- get a "link";;
  Some {| m_headline := t; m_sentiment := sentiment; m_timestamp := ts;
          m_explanation := explanation; m_link := l |}.

(** [articles.map(...)]: the callback runs on the articles in order;
    [tick i] is what the clock reads while it runs on the article at
    index [i]. *)
Fixpoint mapArticles (tick : nat -> Z) (i : nat) (articles : list JSValue)
  : option (list MappedResult) :=
  match articles with
  | [] => Some []
  | a :: rest =>
      r <- mapArticle (tick i) a;;
      rs <- mapArticles tick (S i) rest;;
      Some (r :: rs)
  end.

End Normalizer.

(* ================================================================= *)
(** ** Component state and handlers *)

Inductive SortKey : Type := byDate | byTime | bySentiment.
Inductive Filter : Type := all | only (s : Sentiment).

(** [setSummary({positive: ... ?? 0, ...})]: the fields hold what the
    payload held. *)
Record Summary : Type := {
  sum_positive : JSValue;
  sum_negative : JSValue;
  sum_neutral : JSValue
}.

Record State : Type := {
  st_headline : string;
  st_results : list MappedResult;
  st_sortBy : SortKey;
  st_filterBy : Filter;
  st_isLoading : bool;
  st_errorMsg : option string;
  st_summary : option Summary
}.

Definition initial : State :=
  {| st_headline := ""; st_results := []; st_sortBy := byTime;
     st_filterBy := all; st_isLoading := false; st_errorMsg := None;
     st_summary := None |}.

Definition setResults (r : list MappedResult) (st : State) : State :=
  {| st_headline := st_headline st; st_results := r; st_sortBy := st_sortBy st;
     st_filterBy := st_filterBy st; st_isLoading := st_isLoading st;
     st_errorMsg := st_errorMsg st; st_summary := st_summary st |}.

Definition setIsLoading (b : bool) (st : State) : State :=
  {| st_headline := st_headline st; st_results := st_results st;
     st_sortBy := st_sortBy st; st_filterBy := st_filterBy st;
     st_isLoading := b; st_errorMsg := st_errorMsg st;
     st_summary := st_summary st |}.

Definition setErrorMsg (m : option string) (st : State) : State :=
  {| st_headline := st_headline st; st_results := st_results st;
     st_sortBy := st_sortBy st; st_filterBy := st_filterBy st;
     st_isLoading := st_isLoading st; st_errorMsg := m;
     st_summary := st_summary st |}.

Definition setSummary (s : option Summary) (st : State) : State :=
  {| st_headline := st_headline st; st_results := st_results st;
     st_sortBy := st_sortBy st; st_filterBy := st_filterBy st;
     st_isLoading := st_isLoading st; st_errorMsg := st_errorMsg st;
     st_summary := s |}.

Definition setHeadline (h : string) (st : State) : State :=
  {| st_headline := h; st_results := st_results st;
     st_sortBy := st_sortBy st; st_filterBy := st_filterBy st;
     st_isLoading := st_isLoading st; st_errorMsg := st_errorMsg st;
     st_summary := st_summary st |}.

Definition backendErrorMsg : string :=
  "Backend returned an error. Check the Flask console.".
Definition unreachableMsg : string :=
  "Could not reach the backend. Is python app.py running on port 5000?".

(** *** [String.prototype.trim] *)

Definition isWhiteSpace (c : ascii) : bool :=
  let n := nat_of_ascii c in
  ((9 <=? n) && (n <=? 13) || (n =? 32) || (n =? 160))%nat.

Fixpoint trimStart (s : string) : string :=
  match s with
  | String c rest => if isWhiteSpace c then trimStart rest else s
  | EmptyString => EmptyString
  end.

Fixpoint trimEnd (s : string) : string :=
  match s with
  | String c rest =>
      match trimEnd rest with
      | EmptyString => if isWhiteSpace c then EmptyString else String c EmptyString
      | t => String c t
      end
  | EmptyString => EmptyString
  end.

Definition trim (s : string) : string := trimEnd (trimStart s).

(** *** The request and what comes back *)

Record Request : Type := { query : string; limit : Z }.

(** How the awaits of [analyzeHeadline] can turn out. *)
Inductive Outcome : Type :=
| FetchRejected                    (* [fetch] rejects: no response at all *)
| NotOk (text : option string)     (* [res.ok] is false; [res.text()] resolves or rejects *)
| BodyNotJson                      (* [res.ok], but [res.json()] rejects *)
| OkJson (data : JSValue).         (* [res.ok] and the body parsed *)

(** How a [try] block ends; the state writes made before a throw stay. *)
Inductive Completion : Type :=
| Normal (st : State)
| Thrown (st : State).

Section Client.
Context {E : Engine}.

(** [analyzeHeadline] up to its first [await] (lines 49-60): the state
    after the two writes, and the request that was sent, if any. *)
Definition analyzeHeadline_begin (st : State) : State * option Request :=
  let query := trim (st_headline st) in
  if String.eqb query "" then (st, None)
  else (setErrorMsg None (setIsLoading true st),
        Some {| query := query; limit := 10 |}).

(** [data.summary.k ?? 0] *)
Definition summaryField (summary : JSValue) (k : string) : option JSValue :=
  v <- get summary k;; Some (nullish v (JNumber (Finite 0))).

(** The [try] block from the first [await] on (lines 56-104). *)
Definition tryBlock (tick : nat -> Z) (o : Outcome) (st : State) : Completion :=
  match o with
  | FetchRejected => Thrown st
  | NotOk None => Thrown st
  | NotOk (Some text) =>
      Normal (setIsLoading false (setErrorMsg (Some backendErrorMsg) st))
  | BodyNotJson => Thrown st
  | OkJson data =>
      match get data "articles" with
      | None => Thrown st
      | Some arts =>
          (* a value without a callable [map] throws a TypeError *)
          match (match or_else arts (JArray []) with
                 | JArray l => mapArticles tick 0 l
                 | _ => None
                 end) with
          | None => Thrown st
          | Some mapped =>
              let st := setResults mapped st in
              match get data "summary" with
              | None => Thrown st
              | Some summary =>
                  if truthy summary then
                    match summaryField summary "positive",
                          summaryField summary "negative",
                          summaryField summary "neutral" with
                    | Some p, Some n, Some u =>
                        Normal (setSummary
                                  (Some {| sum_positive := p; sum_negative := n;
                                           sum_neutral := u |}) st)
                    | _, _, _ => Thrown st
                    end
                  else Normal (setSummary None st)
              end
          end
      end
  end.

(** The rest of [analyzeHeadline] once the awaits are settled: the [try]
    block, the [catch] clause, the [finally] clause. *)
Definition analyzeHeadline_resume (tick : nat -> Z) (o : Outcome) (st : State)
  : State :=
  let st :=
    match tryBlock tick o st with
    | Normal st' => st'
    | Thrown st' => setErrorMsg (Some unreachableMsg) st'
    end in
  setIsLoading false st.

(** One call of [analyzeHeadline] run to its end, the service answering
    with [o]. *)
Definition analyzeHeadline (tick : nat -> Z) (o : Outcome) (st : State) : State :=
  match analyzeHeadline_begin st with
  | (st', Some _) => analyzeHeadline_resume tick o st'
  | (st', None) => st'
  end.

(** The two ways a query fails. *)
Inductive Failure : Type := ServiceFailure | TransportFailure.

Definition failure (tick : nat -> Z) (o : Outcome) (st : State) : option Failure :=
  match o with
  | NotOk (Some _) => Some ServiceFailure
  | _ => match tryBlock tick o st with
         | Thrown _ => Some TransportFailure
         | Normal _ => None
         end
  end.

Definition failureMsg (f : Failure) : string :=
  match f with
  | ServiceFailure => backendErrorMsg
  | TransportFailure => unreachableMsg
  end.

Definition clearResults (st : State) : State :=
  setErrorMsg None (setSummary None (setResults [] st)).

(** *** Triggers (lines 215-227) *)

Inductive Event : Type :=
| Change (value : string)   (* typing in the input *)
| KeyDown (key : string)    (* a key pressed in the input *)
| ClickAnalyze.             (* a click on the button *)

(** The input's [onKeyDown] calls [analyzeHeadline] on Enter; the button
    is [disabled={isLoading}], and a disabled button dispatches no click. *)
Definition dispatch (ev : Event) (st : State) : State * option Request :=
  match ev with
  | Change value => (setHeadline value st, None)
  | KeyDown key =>
      if String.eqb key "Enter" then analyzeHeadline_begin st else (st, None)
  | ClickAnalyze =>
      if st_isLoading st then (st, None) else analyzeHeadline_begin st
  end.

End Client.

(* ================================================================= *)
(** ** The view (lines 172-192) *)

Definition Sentiment_eqb (a b : Sentiment) : bool :=
  match a, b with
  | positive, positive | negative, negative | neutral, neutral => true
  | _, _ => false
  end.

(** [filterBy === "all" || r.sentiment === filterBy] *)
Definition keeps (filterBy : Filter) (r : AnalysisResult) : bool :=
  match filterBy with
  | all => true
  | only s =>
      match sentiment r with
      | Some s' => Sentiment_eqb s' s
      | None => false
      end
  end.

Definition filteredResults (filterBy : Filter) (results : list AnalysisResult)
  : list AnalysisResult :=
  filter (keeps filterBy) results.

Definition order (s : Sentiment) : Z :=
  match s with
  | positive => 3
  | neutral => 2
  | negative => 1
  end.

(** [r.sentiment || "neutral"] *)
Definition orNeutral (s : SentimentType) : Sentiment :=
  match s with
  | Some x => x
  | None => neutral
  end.

(** [n || 0] on a number. *)
Definition orZero (n : Z) : Z := if n =? 0 then 0 else n.

(** The comparator passed to [sort]; [None] is [NaN], the difference of
    two time values one of which is [NaN].  Time values are integers of
    magnitude at most 8.64e15; their difference as doubles has the sign of
    their difference as integers. *)
Definition compareFn (sortBy : SortKey) (a b : AnalysisResult) : option Z :=
  match sortBy with
  | byDate | byTime =>
      tb <- getTime (timestamp b);;
      ta <- getTime (timestamp a);;
      Some (tb - ta)
  | bySentiment =>
      Some (orZero (order (orNeutral (sentiment b)))
            - orZero (order (orNeutral (sentiment a))))
  end.

Section Sort.
Context {A : Type} (comparefn : A -> A -> option Z).

(** SortCompare: a [NaN] from the comparator counts as [+0]. *)
Definition SortCompare (x y : A) : Z :=
  match comparefn x y with
  | Some v => v
  | None => 0
  end.

(** [Array.prototype.sort] is a stable sort: [x] stays before a later [y]
    unless the comparator puts [y] strictly first.  For a comparator that
    orders the elements by a key, as the difference of two ranks or of two
    valid time values does, the result of a stable sort is unique and is
    the one computed here.  When the comparator returns [NaN], which the
    date and time keys do on an Invalid Date, ECMAScript leaves the order to
    the implementation: there this insertion sort is one possible order, and
    the statements about the order of the view are made for records with
    valid timestamps. *)
Fixpoint insert (x : A) (l : list A) : list A :=
  match l with
  | [] => [x]
  | y :: rest =>
      if SortCompare x y <=? 0 then x :: y :: rest else y :: insert x rest
  end.

Definition sort (l : list A) : list A := fold_right insert [] l.
End Sort.

(** [[...filteredResults].sort(...)] *)
Definition sortedResults (sortBy : SortKey) (filtered : list AnalysisResult)
  : list AnalysisResult :=
  sort (compareFn sortBy) filtered.

(** The sequence on screen. *)
Definition project (results : list AnalysisResult) (filterBy : Filter)
  (sortBy : SortKey) : list AnalysisResult :=
  sortedResults sortBy (filteredResults filterBy results).

(* ================================================================= *)
(** ** The export (lines 121-144) *)

Definition dquote : ascii := "034"%char.
Definition comma : ascii := ","%char.
Definition newline : ascii := "010"%char.

(** The [replace] call of lines 127 and 132, whose pattern is global: every
    double quote of [s] is written twice. *)
Fixpoint replaceQuotes (s : string) : string :=
  match s with
  | EmptyString => EmptyString
  | String c rest =>
      if Ascii.eqb c dquote
      then String dquote (String dquote (replaceQuotes rest))
      else String c (replaceQuotes rest)
  end.

(** The template literal that wraps the replaced text in double quotes. *)
Definition quoteField (s : string) : string :=
  String dquote (replaceQuotes s ++ String dquote EmptyString).

Definition csvHeader : list string :=
  ["Headline"; "Sentiment"; "Date"; "Time"; "Link"; "Explanation"].

Definition fileName : string := "sentiment-analysis-results.csv".

Section Exporter.
Context {E : Engine}.

(** [r.sentiment || ""] *)
Definition sentimentField (r : AnalysisResult) : string :=
  match sentiment r with
  | Some s => sentimentName s
  | None => ""
  end.

(** [r.link || ""] *)
Definition linkField (r : AnalysisResult) : string :=
  match link r with
  | Some l => l
  | None => ""
  end.

(** The array built for one record (lines 126-133). *)
Definition csvRow (r : AnalysisResult) : list string :=
  [ quoteField (headline r);
    sentimentField r;
    toLocaleDateString (timestamp r);
    toLocaleTimeString (timestamp r);
    linkField r;
    quoteField (explanation r) ].

Definition csvRows (results : list AnalysisResult) : list (list string) :=
  csvHeader :: map csvRow results.

(** [rows.map((row) => row.join(",")).join("\n")] *)
Definition joinRows (rows : list (list string)) : string :=
  String.concat (String newline EmptyString)
    (map (String.concat (String comma EmptyString)) rows).

(** [exportResults]: the text handed to the download, [None] when nothing
    is produced. *)
Definition exportResults (results : list AnalysisResult) : option string :=
  match results with
  | [] => None
  | _ => Some (joinRows (csvRows results))
  end.
End Exporter.

(* ================================================================= *)
(** ** Reading a CSV text back *)

(** Splitting a CSV text into rows of fields, respecting double-quote
    wrapping and doubled-quote escaping: a field that starts with a double
    quote runs to the next double quote that is not doubled, and inside it
    commas and line breaks are ordinary characters and a doubled quote
    stands for one quote.  This reader is not part of the program: it is
    the reader the round-trip property of the export speaks of. *)
Inductive ReaderState : Type :=
| FieldStart    (* nothing of the field read yet *)
| Unquoted      (* inside a field that did not start with a quote *)
| Quoted        (* inside a quoted field *)
| QuoteSeen.    (* in a quoted field, just after a quote *)

(** [field] is the text of the current field so far, [row] the finished
    fields of the current row, last one first, [rows] the finished rows,
    last one first. *)
Fixpoint readCsv (st : ReaderState) (field : string) (row : list string)
  (rows : list (list string)) (input : string) : list (list string) :=
  match input with
  | EmptyString => rev (rev (field :: row) :: rows)
  | String c rest =>
      let push := field ++ String c EmptyString in
      match st with
      | Quoted =>
          if Ascii.eqb c dquote then readCsv QuoteSeen field row rows rest
          else readCsv Quoted push row rows rest
      | QuoteSeen =>
          if Ascii.eqb c dquote then readCsv Quoted push row rows rest
          else if Ascii.eqb c comma then readCsv FieldStart "" (field :: row) rows rest
          else if Ascii.eqb c newline
               then readCsv FieldStart "" [] (rev (field :: row) :: rows) rest
          else readCsv Unquoted push row rows rest
      | FieldStart | Unquoted =>
          if Ascii.eqb c comma then readCsv FieldStart "" (field :: row) rows rest
          else if Ascii.eqb c newline
               then readCsv FieldStart "" [] (rev (field :: row) :: rows) rest
          else match st with
               | FieldStart =>
                   if Ascii.eqb c dquote then readCsv Quoted "" row rows rest
                   else readCsv Unquoted push row rows rest
               | _ => readCsv Unquoted push row rows rest
               end
      end
  end.

Definition parseCsv (text : string) : list (list string) :=
  readCsv FieldStart "" [] [] text.

(** An engine to run examples with.  It prints a number by the decimal
    digits of its integral part (as real engines do for integers below
    1e21), reads one ISO date string and takes every other string for
    unparseable, and formats a date as its time value.  The general theorems
    hold for every engine. *)
Definition exampleNumberToString (n : Number) : string :=
  match n with
  | Infinity false => "Infinity"
  | Infinity true => "-Infinity"
  | Finite q =>
      (if Qnum q <? 0 then "-" else "")
      ++ NilZero.string_of_uint (N.to_uint (Z.to_N (Z.abs (Qnum q) / Zpos (Qden q))))
  end.

Definition exampleDateToString (d : Date) : string :=
  match d with
  | ValidDate t => NilZero.string_of_int (Z.to_int t)
  | InvalidDate => "Invalid Date"
  end.

Definition exampleEngine : Engine :=
  {| Number_toString := exampleNumberToString;
     Function_toString := fun name => "function " ++ name ++ "() { [native code] }";
     Date_parse := fun s =>
       if String.eqb s "2024-01-01T00:00:00.000Z" then Some 1704067200000 else None;
     toLocaleDateString := exampleDateToString;
     toLocaleTimeString := exampleDateToString |}.



(* ================================================================= *)
(** ** Predicates used by the statements *)

(** The number a string of decimal digits denotes; [None] when a character
    is not a digit. *)
Definition digitsValue (s : string) : option N :=
  option_map N.of_uint (NilEmpty.uint_of_string s).

(** [s] is an optional minus sign, at least one digit, a point and exactly
    three digits, and its digits denote [n] thousandths. *)
Definition formatsThousandths (s : string) (negative : bool) (n : N) : Prop :=
  exists int frac,
    s = (if negative then "-" else "") ++ int ++ "." ++ frac /\
    int <> "" /\
    String.length frac = 3%nat /\
    digitsValue (int ++ frac) = Some n.

(** The values [x || y] replaces by [y]. *)
Definition falsy (v : JSValue) : Prop :=
  v = JUndefined \/ v = JNull \/ v = JBool false \/ v = JString "" \/
  exists q, v = JNumber (Finite q) /\ Qnum q = 0.

(** [typeof v === "number"] *)
Definition isNumber (v : JSValue) : bool :=
  match v with
  | JNumber _ => true
  | _ => false
  end.

(** Neither a double quote nor a line break occurs in [s]. *)
Fixpoint plain (s : string) : bool :=
  match s with
  | EmptyString => true
  | String c rest => negb (Ascii.eqb c dquote) && negb (Ascii.eqb c newline) && plain rest
  end.

(** *** Inputs of the examples *)

(** The double nearest to -0.812. *)
Definition minus0812 : Q := (- 3656922897424843 # 4503599627370496).

Definition teslaArticle : JSValue :=
  JObject [("title", JString "Tesla stock crashes 15%");
           ("sentiment", JString "negative");
           ("polarity", JNumber (Finite minus0812))].

Definition teslaRecord : MappedResult :=
  {| m_headline := JString "Tesla stock crashes 15%";
     m_sentiment := JString "negative";
     m_timestamp := ValidDate 1001;
     m_explanation := JString "Polarity score: -0.812";
     m_link := JUndefined |}.

Definition undatedArticle : JSValue := JObject [("title", JString "Gold surges")].

Definition undatedRecord (now : Z) : MappedResult :=
  {| m_headline := JString "Gold surges";
     m_sentiment := JString "neutral";
     m_timestamp := ValidDate now;
     m_explanation := JString "Polarity score: ";
     m_link := JUndefined |}.

(** A clock that advances between two articles. *)
Definition exampleTick (i : nat) : Z := 1000 + Z.of_nat i.

Definition exampleSummary : Summary :=
  {| sum_positive := JNumber (Finite 2); sum_negative := JNumber (Finite 1);
     sum_neutral := JNumber (Finite 0) |}.

(** A state left by an earlier successful query, with a new headline typed
    in. *)
Definition exampleState : State :=
  {| st_headline := "Tesla stock crashes 15%";
     st_results := [teslaRecord];
     st_sortBy := byTime;
     st_filterBy := all;
     st_isLoading := false;
     st_errorMsg := None;
     st_summary := Some exampleSummary |}.

(** The same state while a query is in flight. *)
Definition busyState : State := setIsLoading true exampleState.

(** The rank the sentiment comparator gives a record. *)
Definition rank (r : AnalysisResult) : Z := order (orNeutral (sentiment r)).

(** [a] stands somewhere before [b] in [l]. *)
Definition precedes {A : Type} (a b : A) (l : list A) : Prop :=
  exists l1 l2 l3, l = (l1 ++ a :: l2 ++ b :: l3)%list.

(** Nor a comma. *)
Fixpoint simple (s : string) : bool :=
  match s with
  | EmptyString => true
  | String c rest =>
      negb (Ascii.eqb c comma) && negb (Ascii.eqb c dquote)
      && negb (Ascii.eqb c newline) && simple rest
  end.

Section ExportPredicates.
Context {E : Engine}.

(** The fields the export writes without quotes hold no double quote and
    no line break. *)
Definition plainRecord (r : AnalysisResult) : bool :=
  plain (toLocaleDateString (timestamp r))
  && plain (toLocaleTimeString (timestamp r))
  && plain (linkField r).

(** Nor a comma. *)
Definition simpleRecord (r : AnalysisResult) : bool :=
  simple (toLocaleDateString (timestamp r))
  && simple (toLocaleTimeString (timestamp r))
  && simple (linkField r).

(** The six values of a record's row, before any quoting. *)
Definition rowValues (r : AnalysisResult) : list string :=
  [ headline r; sentimentField r; toLocaleDateString (timestamp r);
    toLocaleTimeString (timestamp r); linkField r; explanation r ].
End ExportPredicates.

Definition quotedHeadline : string :=
  "He said " ++ String dquote ("sell now" ++ String dquote EmptyString).

Definition quotedRecord : AnalysisResult :=
  {| headline := quotedHeadline; sentiment := Some positive;
     timestamp := ValidDate 1704067200000;
     explanation := "Polarity score: 0.500";
     link := Some "https://example.com/a?x=1,2" |}.

Definition bareRecord : AnalysisResult :=
  {| headline := "Markets, mixed"; sentiment := None;
     timestamp := InvalidDate;
     explanation := "Polarity score: ";
     link := None |}.

(** Values whose conversions cannot throw. *)
Definition primitive (v : JSValue) : bool :=
  match v with
  | JArray _ | JObject _ => false
  | _ => true
  end.

Definition propertyOf (props : list (string * JSValue)) (k : string) : JSValue :=
  match lookup k props with
  | Some x => x
  | None => JUndefined
  end.

(* ================================================================= *)
(** ** The rest of the component, on the objects the program holds *)

(** [getSentimentColor] (lines 159-170): a [switch] compares with [===]. *)
Definition getSentimentColor (s : JSValue) : string :=
  match s with
  | JString x =>
      if String.eqb x "positive" then "positive"
      else if String.eqb x "negative" then "negative"
      else if String.eqb x "neutral" then "neutral"
      else "muted"
  | _ => "muted"
  end.

(** The icons of [lucide-react] the component draws. *)
Inductive Icon : Type := TrendingUp | TrendingDown | Minus.

(** [getSentimentIcon] (lines 146-157); [None] is the [null] of the
    default case. *)
Definition getSentimentIcon (s : JSValue) : option Icon :=
  match s with
  | JString x =>
      if String.eqb x "positive" then Some TrendingUp
      else if String.eqb x "negative" then Some TrendingDown
      else if String.eqb x "neutral" then Some Minus
      else None
  | _ => None
  end.

(** The callback of [results.filter] (line 173) on a mapped object:
    [r.sentiment === filterBy] holds for a string equal to the filter's
    name and for nothing else. *)
Definition keepsMapped (filterBy : Filter) (r : MappedResult) : bool :=
  match filterBy with
  | all => true
  | only s =>
      match m_sentiment r with
      | JString x => String.eqb x (sentimentName s)
      | _ => false
      end
  end.

Fixpoint traverse {A B : Type} (f : A -> option B) (l : list A) : option (list B) :=
  match l with
  | [] => Some []
  | x :: rest =>
      y <- f x;;
      ys <- traverse f rest;;
      Some (y :: ys)
  end.

Section RunTimeExport.
Context {E : Engine}.

(** [v.replace(...)] wrapped in quotes: only a string has a [replace]
    method, on any other value the call throws a TypeError. *)
Definition quoteValue (v : JSValue) : option string :=
  match v with
  | JString s => Some (quoteField s)
  | _ => None
  end.

(** The array built for one mapped object (lines 126-133). *)
Definition mappedRow (r : MappedResult) : option (list JSValue) :=
  h <- quoteValue (m_headline r);;
  e <- quoteValue (m_explanation r);;
  Some [ JString h;
         or_else (m_sentiment r) (JString "");
         JString (toLocaleDateString (m_timestamp r));
         JString (toLocaleTimeString (m_timestamp r));
         or_else (m_link r) (JString "");
         JString e ].

(** How [join] prints an element. *)
Definition joinElement (v : JSValue) : option string :=
  match v with
  | JUndefined | JNull => Some ""
  | _ => ToString v
  end.

(** [row.join(",")] *)
Definition joinArray (row : list JSValue) : option string :=
  ss <- traverse joinElement row;;
  Some (String.concat (String comma EmptyString) ss).

(** [exportResults] on the results the state holds: [None] is a thrown
    TypeError, [Some None] the early return on no results. *)
Definition exportMapped (results : list MappedResult) : option (option string) :=
  match results with
  | [] => Some None
  | _ =>
      rows <- traverse mappedRow results;;
      lines <- traverse joinArray (map JString csvHeader :: rows);;
      Some (Some (String.concat (String newline EmptyString) lines))
  end.
End RunTimeExport.

(** *** Predicates of the further statements *)

Fixpoint allWhiteSpace (s : string) : bool :=
  match s with
  | EmptyString => true
  | String c rest => isWhiteSpace c && allWhiteSpace rest
  end.

Definition firstChar (s : string) : option ascii :=
  match s with
  | EmptyString => None
  | String c _ => Some c
  end.

Fixpoint lastChar (s : string) : option ascii :=
  match s with
  | EmptyString => None
  | String c EmptyString => Some c
  | String _ rest => lastChar rest
  end.

Definition notWhiteSpace (c : option ascii) : Prop :=
  exists x, c = Some x /\ isWhiteSpace x = false.

Definition validTimestamp (r : AnalysisResult) : Prop :=
  exists t, timestamp r = ValidDate t.

(** The time value of a record with a valid timestamp. *)
Definition timeOf (r : AnalysisResult) : Z :=
  match timestamp r with
  | ValidDate t => t
  | InvalidDate => 0
  end.

(** The response carried a payload that normalises to [rs] and [sm]. *)
Definition succeedsWith {E : Engine} (tick : nat -> Z) (o : Outcome)
  (rs : list MappedResult) (sm : option Summary) : Prop :=
  forall st, tryBlock tick o st = Normal (setSummary sm (setResults rs st)).

(** A payload whose [articles] array holds [null] next to a good article. *)
Definition payloadWithNull : JSValue :=
  JObject [("articles", JArray [teslaArticle; JNull])].

Definition goodPayload : JSValue :=
  JObject [("articles", JArray [undatedArticle; teslaArticle]);
           ("summary", JObject [("negative", JNumber (Finite 1));
                                ("neutral", JNull)])].

(** A state showing the error of an earlier failed query. *)
Definition failedState : State :=
  setErrorMsg (Some unreachableMsg) exampleState.

(** The comparator of two records with valid timestamps. *)
Definition byTimeOf (a b : AnalysisResult) : option Z := Some (timeOf b - timeOf a).

Definition olderRecord : AnalysisResult :=
  {| headline := "Older"; sentiment := Some negative; timestamp := ValidDate 1000;
     explanation := "Polarity score: -0.500"; link := None |}.

Definition newerRecord : AnalysisResult :=
  {| headline := "Newer"; sentiment := None; timestamp := ValidDate 2000;
     explanation := "Polarity score: 0.000"; link := None |}.

(** An article as the service contract describes it. *)
Definition contractArticle : JSValue :=
  JObject [("title", JString "Gold prices surge after Fed cuts rates");
           ("sentiment", JString "positive");
           ("published", JString "2024-01-01T00:00:00.000Z");
           ("polarity", JNumber (Finite (1 # 2)));
           ("link", JString "https://example.com/gold")].

(** What the normalisation guarantees of every record it builds. *)
Definition wellFormed (m : MappedResult) : Prop :=
  truthy (m_sentiment m) = true /\
  truthy (m_explanation m) = true /\
  forall r, asAnalysisResult m = Some r ->
            sentiment r <> None /\ explanation r <> "".

(** The record built from an article without title. *)
Definition untitledArticle : JSValue :=
  JObject [("sentiment", JString "positive"); ("explanation", JString "Strong quarter")].

Definition untitledRecord : MappedResult :=
  {| m_headline := JUndefined; m_sentiment := JString "positive";
     m_timestamp := ValidDate 1001; m_explanation := JString "Strong quarter";
     m_link := JUndefined |}.

Definition bullishRecord : MappedResult :=
  {| m_headline := JString "Fed holds rates"; m_sentiment := JString "bullish";
     m_timestamp := ValidDate 1000; m_explanation := JString "Polarity score: ";
     m_link := JUndefined |}.

(** A label is known when it is one of the three strings. *)
Definition knownLabel (v : JSValue) : option Sentiment :=
  match asSentimentType v with
  | Some (Some s) => Some s
  | _ => None
  end.

(* ================================================================= *)
(** ** The failures of a query, told by what came back *)

Section Failures.
Context {E : Engine}.

(** A transport failure: no response at all, a body that cannot be read or
    is not JSON, or a payload the normalisation cannot take, which is a
    payload that is [null], an [articles] that is not an array, or an
    article on which the callback throws (a [null] article, for one). *)
Inductive transportFails (tick : nat -> Z) : Outcome -> Prop :=
| fetch_rejected : transportFails tick FetchRejected
| body_unreadable : transportFails tick (NotOk None)
| body_not_json : transportFails tick BodyNotJson
| payload_absent data :
    data = JNull \/ data = JUndefined -> transportFails tick (OkJson data)
| articles_not_array data arts :
    get data "articles" = Some arts ->
    truthy arts = true ->
    (forall l, arts <> JArray l) ->
    transportFails tick (OkJson data)
| article_throws data l i a :
    get data "articles" = Some (JArray l) ->
    nth_error l i = Some a ->
    mapArticle (tick i) a = None ->
    transportFails tick (OkJson data).

End Failures.

(** A failure the service reports: a response that is not ok, whose body
    could be read. *)
Definition serviceFails (o : Outcome) : Prop := exists text, o = NotOk (Some text).



(** A record whose link holds a line break. *)
Definition brokenLinkRecord : AnalysisResult :=
  {| headline := "Rates on hold"; sentiment := Some neutral;
     timestamp := ValidDate 1704067200000;
     explanation := "Polarity score: 0.000";
     link := Some ("http://x/a" ++ String newline "b") |}.

(** A row that starts with the record's headline and its Sentiment field,
    the empty text for no sentiment. *)
Definition startsRowOf (r : AnalysisResult) (row : list string) : Prop :=
  exists more,
    row = headline r
          :: match sentiment r with
             | Some s => sentimentName s
             | None => ""
             end
          :: more.
(* ================================================================= *)
(** ** Properties of the normalisation *)

Section NormalizerFacts.
Context {E : Engine}.

Lemma mapArticles_nth tick articles :
  forall k rs i a,
    mapArticles tick k articles = Some rs ->
    nth_error articles i = Some a ->
    exists r, nth_error rs i = Some r /\ mapArticle (tick (k + i)%nat) a = Some r.
Proof.
  induction articles as [|a0 rest IH]; intros k rs i a Hmap Hnth.
  - destruct i; discriminate.
  - simpl in Hmap.
    destruct (mapArticle (tick k) a0) as [r0|] eqn:Hr0; try discriminate.
    destruct (mapArticles tick (S k) rest) as [rs0|] eqn:Hrs; try discriminate.
    injection Hmap as <-.
    destruct i as [|i]; simpl in Hnth.
    + injection Hnth as <-. exists r0. rewrite Nat.add_0_r. split; [reflexivity|assumption].
    + destruct (IH (S k) rs0 i a Hrs Hnth) as [r [H1 H2]].
      exists r. split; [exact H1|].
      replace (k + S i)%nat with (S k + i)%nat by lia. exact H2.
Qed.

Lemma mapArticles_length tick articles :
  forall k rs, mapArticles tick k articles = Some rs -> List.length rs = List.length articles.
Proof.
  induction articles as [|a0 rest IH]; intros k rs Hmap; simpl in Hmap.
  - injection Hmap as <-. reflexivity.
  - destruct (mapArticle (tick k) a0); try discriminate.
    destruct (mapArticles tick (S k) rest) eqn:Hrs; try discriminate.
    injection Hmap as <-. simpl. f_equal. eapply IH; eassumption.
Qed.

(** What the callback computes, field by field. *)
Lemma mapArticle_fields now a r :
  mapArticle now a = Some r ->
  exists s p e t l,
    get a "sentiment" = Some s /\ get a "published" = Some p /\
    get a "explanation" = Some e /\ get a "title" = Some t /\
    get a "link" = Some l /\
    m_headline r = t /\ m_link r = l /\
    m_sentiment r = or_else s (JString "neutral") /\
    (if truthy p then new_Date p else Some (ValidDate now)) = Some (m_timestamp r) /\
    (if truthy e then Some e
     else pol <- get a "polarity";; txt <- polarityText pol;;
          Some (JString ("Polarity score: " ++ txt))) = Some (m_explanation r).
Proof.
  unfold mapArticle. intros H.
  destruct (get a "sentiment") as [s|]; try discriminate.
  destruct (get a "published") as [p|]; try discriminate.
  destruct (if truthy p then new_Date p else Some (ValidDate now)) as [ts|] eqn:Hts;
    try discriminate.
  destruct (get a "explanation") as [e|]; try discriminate.
  match type of H with
  | match ?X with _ => _ end = _ => destruct X as [ex|] eqn:Hex; try discriminate
  end.
  destruct (get a "title") as [t|]; try discriminate.
  destruct (get a "link") as [l|]; try discriminate.
  injection H as <-. simpl.
  exists s, p, e, t, l. repeat split; assumption.
Qed.

Lemma new_Date_primitive (v : JSValue) :
  primitive v = true -> exists d, new_Date v = Some d.
Proof. destruct v; simpl; intros H; try discriminate; eauto. Qed.

Lemma polarityText_primitive (v : JSValue) :
  primitive v = true -> exists txt, polarityText v = Some txt.
Proof.
  destruct v as [| |b|n|s|l|ps|nm]; simpl; intros H; try discriminate; eauto.
  destruct b; eauto.
Qed.

(** The callback returns on every article that is an object whose published
    and polarity fields are primitive values: nothing can throw. *)
Lemma mapArticle_returns now props :
  primitive (propertyOf props "published") = true ->
  primitive (propertyOf props "polarity") = true ->
  exists r, mapArticle now (JObject props) = Some r.
Proof.
  intros Hp Hpol. unfold mapArticle. cbn [get].
  change (match lookup "published" props with Some x => x | None => JUndefined end)
    with (propertyOf props "published").
  change (match lookup "polarity" props with Some x => x | None => JUndefined end)
    with (propertyOf props "polarity").
  destruct (new_Date_primitive _ Hp) as [d Hd].
  destruct (polarityText_primitive _ Hpol) as [txt Htxt].
  rewrite Hd, Htxt.
  destruct (truthy (propertyOf props "published"));
    destruct (truthy _); eauto.
Qed.

End NormalizerFacts.

(* ================================================================= *)
(** ** [toFixed(3)] *)

Lemma substring_split s : forall a b,
  (a + b = String.length s)%nat -> substring 0 a s ++ substring a b s = s.
Proof.
  induction s as [|c s IH]; intros a b H; simpl in H.
  - assert (a = 0%nat) by lia. assert (b = 0%nat) by lia. subst. reflexivity.
  - destruct a as [|a].
    + simpl in H. subst b. simpl. clear IH. f_equal.
      induction s as [|c' s IH]; simpl; [reflexivity|]. f_equal. exact IH.
    + simpl. f_equal. apply IH. lia.
Qed.

Lemma substring_prefix_length s : forall a,
  (a <= String.length s)%nat -> String.length (substring 0 a s) = a.
Proof.
  induction s as [|c s IH]; intros a H; simpl in H.
  - assert (a = 0%nat) by lia. subst. reflexivity.
  - destruct a as [|a]; [reflexivity|]. simpl. f_equal. apply IH. lia.
Qed.

Lemma string_length_app (s t : string) :
  String.length (s ++ t) = (String.length s + String.length t)%nat.
Proof. induction s as [|c s IH]; simpl; [reflexivity|]. now rewrite IH. Qed.

Lemma zeros_length k : String.length (zeros k) = k.
Proof. induction k; simpl; congruence. Qed.

Lemma digitsValue_zeros k s : digitsValue (zeros k ++ s) = digitsValue s.
Proof.
  induction k as [|k IH]; [reflexivity|].
  unfold digitsValue in *. simpl.
  destruct (NilEmpty.uint_of_string (zeros k ++ s)) as [d|];
    destruct (NilEmpty.uint_of_string s) as [d'|]; simpl in *; try congruence.
Qed.

Lemma to_uint_nonnil (n : N) : N.to_uint n <> Decimal.Nil.
Proof.
  destruct n; simpl; [discriminate|]. apply DecimalPos.Unsigned.to_uint_nonnil.
Qed.

Lemma decimal_digits_value (n : Z) :
  digitsValue (decimal_digits n) = Some (Z.to_N n).
Proof.
  unfold decimal_digits, digitsValue, NilZero.string_of_uint.
  destruct (N.to_uint (Z.to_N n)) eqn:H;
    try (exfalso; eapply to_uint_nonnil; eassumption);
    rewrite <- H, NilEmpty.usu; simpl; now rewrite DecimalN.Unsigned.of_to.
Qed.

Lemma decimal_digits_nonempty (n : Z) : (1 <= String.length (decimal_digits n))%nat.
Proof.
  unfold decimal_digits, NilZero.string_of_uint.
  destruct (N.to_uint (Z.to_N n)) eqn:H; simpl; try lia.
Qed.

(** [place_point] on digits: the text before the point is not empty, three
    digits follow the point, and the digits still denote the same number. *)
Lemma place_point_format (m : string) (n : N) :
  (1 <= String.length m)%nat ->
  digitsValue m = Some n ->
  exists int frac,
    place_point m = int ++ "." ++ frac /\ int <> "" /\
    String.length frac = 3%nat /\ digitsValue (int ++ frac) = Some n.
Proof.
  intros Hlen Hval. unfold place_point.
  set (m' := if (String.length m <=? 3)%nat then zeros (4 - String.length m) ++ m else m).
  assert (Hlen' : (4 <= String.length m')%nat).
  { unfold m'. destruct (Nat.leb_spec (String.length m) 3).
    - rewrite string_length_app, zeros_length. lia.
    - lia. }
  assert (Hval' : digitsValue m' = Some n).
  { unfold m'. destruct (String.length m <=? 3)%nat; [rewrite digitsValue_zeros|]; exact Hval. }
  clearbody m'.
  assert (Hsplit : substring 0 (String.length m' - 3) m'
                   ++ substring (String.length m' - 3) 3 m' = m')
    by (apply substring_split; lia).
  exists (substring 0 (String.length m' - 3) m'), (substring (String.length m' - 3) 3 m').
  split; [reflexivity|].
  assert (Hint : String.length (substring 0 (String.length m' - 3) m')
                 = (String.length m' - 3)%nat) by (apply substring_prefix_length; lia).
  split; [|split].
  - intros Heq. rewrite Heq in Hint. simpl in Hint. lia.
  - apply (f_equal String.length) in Hsplit.
    rewrite string_length_app, Hint in Hsplit. lia.
  - rewrite Hsplit. exact Hval'.
Qed.

(** [n / 1000] is nearest to [x] among the thousandths, and the larger of
    the two when [x] lies half-way. *)
Lemma nearest_thousandth_spec (x : Q) :
  let n := nearest_thousandth x in
  (inject_Z n - (1 # 2) <= 1000 * x)%Q /\ (1000 * x < inject_Z n + (1 # 2))%Q.
Proof.
  destruct x as [p d]. unfold nearest_thousandth. simpl Qnum. simpl Qden.
  set (n := (2 * 1000 * p + Z.pos d) / (2 * Z.pos d)).
  assert (Hd : 0 < 2 * Z.pos d) by lia.
  pose proof (Z.mul_div_le (2 * 1000 * p + Z.pos d) _ Hd) as Hlo.
  pose proof (Z.mul_succ_div_gt (2 * 1000 * p + Z.pos d) _ Hd) as Hhi.
  fold n in Hlo, Hhi.
  clearbody n.
  unfold Qle, Qlt. cbn [Qnum Qden Qminus Qplus Qmult Qopp inject_Z].
  rewrite ?Pos2Z.inj_mul, ?Pos.mul_1_l, ?Pos.mul_1_r.
  split; lia.
Qed.

Section ToFixed.
Context {E : Engine}.

Lemma toFixed3_format (q : Q) :
  (Qabs q < 10 ^ 21)%Q ->
  formatsThousandths (toFixed3 (Finite q)) (Qnum q <? 0)
    (Z.to_N (nearest_thousandth (Qabs q))).
Proof.
  intros Hlt. unfold toFixed3.
  destruct (Qle_bool (10 ^ 21) (Qabs q)) eqn:Hle.
  { apply Qle_bool_iff in Hle. exfalso. apply (Qlt_not_le _ _ Hlt Hle). }
  destruct (place_point_format (decimal_digits (nearest_thousandth (Qabs q))) _
              (decimal_digits_nonempty _) (decimal_digits_value _))
    as [int [frac [H1 [H2 [H3 H4]]]]].
  exists int, frac. rewrite H1.
  repeat split; assumption.
Qed.
End ToFixed.

(* ================================================================= *)
(** ** The normalised fields *)

Lemma truthy_false_iff (v : JSValue) : truthy v = false <-> falsy v.
Proof.
  unfold falsy. split.
  - destruct v as [| |b|n|s|l|ps|nm]; simpl; intros H; try discriminate; auto.
    + destruct b; [discriminate|]. auto.
    + destruct n as [neg|q]; simpl in H; [discriminate|].
      apply negb_false_iff, Z.eqb_eq in H. right; right; right; right. eauto.
    + apply negb_false_iff, String.eqb_eq in H. subst. auto.
  - intros [->|[->|[->|[->|[q [-> Hq]]]]]]; simpl; try reflexivity.
    apply negb_false_iff, Z.eqb_eq. exact Hq.
Qed.

Lemma truthy_true_iff (v : JSValue) : truthy v = true <-> ~ falsy v.
Proof.
  rewrite <- truthy_false_iff. destruct (truthy v); split; congruence.
Qed.

Lemma get_absent props k :
  lookup k props = None -> get (JObject props) k = Some JUndefined.
Proof. intros H. simpl. now rewrite H. Qed.

Section Normalized.
Context {E : Engine}.

(** C1, as amended: for every raw article of the payload, normalisation
    yields the sentiment "neutral" whenever the article's sentiment field
    is absent or falsy (undefined, null, false, zero or the empty
    string); any other value, a misspelled or unexpected label included,
    is kept unchanged in the resulting record. *)
Theorem sentiment_neutral_when_falsy tick articles rs i a :
  mapArticles tick 0 articles = Some rs ->
  nth_error articles i = Some a ->
  exists r s,
    nth_error rs i = Some r /\ get a "sentiment" = Some s /\
    (falsy s -> m_sentiment r = JString "neutral") /\
    (~ falsy s -> m_sentiment r = s) /\
    (forall props, a = JObject props -> lookup "sentiment" props = None ->
                   m_sentiment r = JString "neutral").
Proof.
  intros Hmap Hnth.
  destruct (mapArticles_nth _ _ _ _ _ _ Hmap Hnth) as [r [Hr Hone]].
  destruct (mapArticle_fields _ _ _ Hone)
    as (s & p & e & t & l & Hs & _ & _ & _ & _ & _ & _ & Hsent & _).
  exists r, s. unfold or_else in Hsent.
  split; [exact Hr|]. split; [exact Hs|]. split; [|split].
  - intros Hf. apply truthy_false_iff in Hf. now rewrite Hf in Hsent.
  - intros Hf. apply truthy_true_iff in Hf. now rewrite Hf in Hsent.
  - intros props -> Hnone. rewrite (get_absent _ _ Hnone) in Hs.
    injection Hs as <-. exact Hsent.
Qed.

(** C3, as amended: for every raw article whose published field is absent
    or falsy, normalisation assigns the record the instant at which that
    very article is processed, so two such articles of one batch get the
    readings of the clock at their own indices; a present published field
    is handed to the [Date] constructor: a string that parses gives the
    parsed instant, a string that does not parse gives an Invalid Date. *)
Theorem timestamp_of_published tick articles rs i a :
  mapArticles tick 0 articles = Some rs ->
  nth_error articles i = Some a ->
  exists r p,
    nth_error rs i = Some r /\ get a "published" = Some p /\
    (falsy p -> m_timestamp r = ValidDate (tick i)) /\
    (~ falsy p -> new_Date p = Some (m_timestamp r)) /\
    (forall s, p = JString s -> s <> "" ->
       m_timestamp r = match Date_parse s with
                       | Some t => TimeClipZ t
                       | None => InvalidDate
                       end).
Proof.
  intros Hmap Hnth.
  destruct (mapArticles_nth _ _ _ _ _ _ Hmap Hnth) as [r [Hr Hone]].
  destruct (mapArticle_fields _ _ _ Hone)
    as (s & p & e & t & l & _ & Hp & _ & _ & _ & _ & _ & _ & Hts & _).
  exists r, p. simpl in Hts.
  split; [exact Hr|]. split; [exact Hp|]. split; [|split].
  - intros Hf. apply truthy_false_iff in Hf. rewrite Hf in Hts. congruence.
  - intros Hf. apply truthy_true_iff in Hf. now rewrite Hf in Hts.
  - intros s0 -> Hne. simpl in Hts.
    destruct (String.eqb_spec s0 ""); [contradiction|].
    simpl in Hts. unfold parseDate in Hts. congruence.
Qed.

(** C4, as amended: for every raw article whose explanation is absent or
    falsy, the record's explanation is "Polarity score: " followed by the
    polarity formatted with exactly three decimals when the polarity is a
    finite number below 1e21 in magnitude, by the empty string when the
    polarity is absent or null, and by the polarity's own string
    conversion when it is any other non-numeric value (a polarity "high"
    gives "Polarity score: high"); any other explanation is used as it
    is. *)
Theorem explanation_of_article tick articles rs i a :
  mapArticles tick 0 articles = Some rs ->
  nth_error articles i = Some a ->
  exists r e,
    nth_error rs i = Some r /\ get a "explanation" = Some e /\
    (~ falsy e -> m_explanation r = e) /\
    (falsy e ->
     exists pol txt,
       get a "polarity" = Some pol /\
       m_explanation r = JString ("Polarity score: " ++ txt) /\
       (forall q, pol = JNumber (Finite q) -> (Qabs q < 10 ^ 21)%Q ->
          txt = toFixed3 (Finite q) /\
          formatsThousandths txt (Qnum q <? 0)
            (Z.to_N (nearest_thousandth (Qabs q)))) /\
       (pol = JUndefined \/ pol = JNull -> txt = "") /\
       (forall s, pol = JString s -> txt = s) /\
       (isNumber pol = false -> pol <> JUndefined -> pol <> JNull ->
        ToString pol = Some txt)).
Proof.
  intros Hmap Hnth.
  destruct (mapArticles_nth _ _ _ _ _ _ Hmap Hnth) as [r [Hr Hone]].
  destruct (mapArticle_fields _ _ _ Hone)
    as (s & p & e & t & l & _ & _ & He & _ & _ & _ & _ & _ & _ & Hex).
  exists r, e.
  split; [exact Hr|]. split; [exact He|]. split.
  - intros Hf. apply truthy_true_iff in Hf. rewrite Hf in Hex. congruence.
  - intros Hf. apply truthy_false_iff in Hf. rewrite Hf in Hex.
    destruct (get a "polarity") as [pol|]; [|discriminate].
    destruct (polarityText pol) as [txt|] eqn:Htxt; [|discriminate].
    exists pol, txt. split; [reflexivity|]. split; [congruence|].
    split; [|split; [|split]].
    + intros q -> Hq. simpl in Htxt. injection Htxt as <-.
      split; [reflexivity|]. apply toFixed3_format. exact Hq.
    + intros [-> | ->]; simpl in Htxt; congruence.
    + intros s0 ->. simpl in Htxt. congruence.
    + intros Hnum Hu Hn.
      destruct pol; simpl in *; try congruence.
Qed.

End Normalized.

(** C1, counterexample: a label outside the three known values is not
    coerced; the record keeps it. *)
Lemma misspelled_sentiment_is_kept :
  let a := JObject [("title", JString "Fed holds rates");
                    ("sentiment", JString "bullish")] in
  asSentimentType (JString "bullish") = None /\
  option_map m_sentiment (mapArticle (E := exampleEngine) 0 a)
  = Some (JString "bullish") /\
  JString "bullish" <> JString "neutral".
Proof. repeat split; discriminate. Qed.

Lemma sentiment_neutral_witness :
  exists r s,
    nth_error
      [{| m_headline := JString "Fed holds rates"; m_sentiment := JString "neutral";
          m_timestamp := ValidDate 42;
          m_explanation := JString "Polarity score: ";
          m_link := JUndefined |}] 0 = Some r /\
    get (JObject [("title", JString "Fed holds rates")]) "sentiment" = Some s /\
    (falsy s -> m_sentiment r = JString "neutral") /\
    (~ falsy s -> m_sentiment r = s) /\
    (forall props, JObject [("title", JString "Fed holds rates")] = JObject props ->
                   lookup "sentiment" props = None ->
                   m_sentiment r = JString "neutral").
Proof.
  apply (sentiment_neutral_when_falsy (E := exampleEngine) (fun _ => 42)
           [JObject [("title", JString "Fed holds rates")]]); reflexivity.
Defined.

(** C3, counterexample: a published field that does not parse gives an
    Invalid Date, not the instant of processing. *)
Lemma unparseable_published_is_invalid :
  let a := JObject [("title", JString "Gold surges");
                    ("published", JString "not a date")] in
  Date_parse (Engine := exampleEngine) "not a date" = None /\
  option_map m_timestamp (mapArticle (E := exampleEngine) 1700000000000 a)
  = Some InvalidDate /\
  InvalidDate <> ValidDate 1700000000000.
Proof. repeat split; discriminate. Qed.

Lemma timestamp_of_published_witness :
  exists r p,
    nth_error [undatedRecord 1000; undatedRecord 1001] 1 = Some r /\
    get undatedArticle "published" = Some p /\
    (falsy p -> m_timestamp r = ValidDate (exampleTick 1)) /\
    (~ falsy p -> new_Date (E := exampleEngine) p = Some (m_timestamp r)) /\
    (forall s, p = JString s -> s <> "" ->
       m_timestamp r = match Date_parse (Engine := exampleEngine) s with
                       | Some t => TimeClipZ t
                       | None => InvalidDate
                       end).
Proof.
  apply (timestamp_of_published (E := exampleEngine) exampleTick
           [undatedArticle; undatedArticle]); reflexivity.
Defined.

(** Two articles without a published field, processed in one batch while
    the clock advances, get different timestamps. *)
Example defaults_differ_within_a_batch :
  option_map (map m_timestamp)
    (mapArticles (E := exampleEngine) exampleTick 0 [undatedArticle; undatedArticle])
  = Some [ValidDate 1000; ValidDate 1001].
Proof. reflexivity. Qed.

(** A published field that parses is parsed. *)
Example parseable_published_is_parsed :
  option_map m_timestamp
    (mapArticle (E := exampleEngine) 5
       (JObject [("title", JString "Gold surges");
                 ("published", JString "2024-01-01T00:00:00.000Z")]))
  = Some (ValidDate 1704067200000).
Proof. reflexivity. Qed.

(** C4, counterexample: a polarity that is not a number and not absent is
    rendered by its string conversion, not as the empty string. *)
Lemma non_numeric_polarity_is_rendered :
  let a := JObject [("title", JString "Gold surges");
                    ("polarity", JString "high")] in
  isNumber (JString "high") = false /\
  option_map m_explanation (mapArticle (E := exampleEngine) 0 a)
  = Some (JString "Polarity score: high") /\
  JString "Polarity score: high" <> JString "Polarity score: ".
Proof. repeat split; discriminate. Qed.

Lemma explanation_of_article_witness :
  exists r e,
    nth_error [undatedRecord 1000; teslaRecord] 1 = Some r /\
    get teslaArticle "explanation" = Some e /\
    (~ falsy e -> m_explanation r = e) /\
    (falsy e ->
     exists pol txt,
       get teslaArticle "polarity" = Some pol /\
       m_explanation r = JString ("Polarity score: " ++ txt) /\
       (forall q, pol = JNumber (Finite q) -> (Qabs q < 10 ^ 21)%Q ->
          txt = toFixed3 (E := exampleEngine) (Finite q) /\
          formatsThousandths txt (Qnum q <? 0)
            (Z.to_N (nearest_thousandth (Qabs q)))) /\
       (pol = JUndefined \/ pol = JNull -> txt = "") /\
       (forall s, pol = JString s -> txt = s) /\
       (isNumber pol = false -> pol <> JUndefined -> pol <> JNull ->
        ToString (E := exampleEngine) pol = Some txt)).
Proof.
  apply (explanation_of_article (E := exampleEngine) exampleTick
           [undatedArticle; teslaArticle]); reflexivity.
Defined.

(** The scenario of the specification: the Tesla article. *)
Example tesla_scenario :
  mapArticles (E := exampleEngine) exampleTick 0 [undatedArticle; teslaArticle]
  = Some [undatedRecord 1000; teslaRecord].
Proof. reflexivity. Qed.

(** Numbers for which [toFixed] does not print three decimals: the
    infinities and the magnitudes from 1e21 on go through the number's own
    string conversion. *)
Lemma toFixed3_large {E : Engine} (q : Q) :
  (10 ^ 21 <= Qabs q)%Q ->
  toFixed3 (Finite q)
  = (if Qnum q <? 0 then "-" else "") ++ Number_toString (Finite (Qabs q)).
Proof.
  intros H. unfold toFixed3. apply Qle_bool_iff in H. now rewrite H.
Qed.

(* ================================================================= *)
(** ** The query client *)

Lemma get_some_any (v : JSValue) (k k' : string) (x : JSValue) :
  get v k = Some x -> exists y, get v k' = Some y.
Proof. destruct v; simpl; intros H; try discriminate; eauto. Qed.

Lemma get_truthy (v : JSValue) (k : string) :
  truthy v = true -> exists y, get v k = Some y.
Proof. destruct v; simpl; intros H; try discriminate; eauto. Qed.

Section ClientFacts.
Context {E : Engine}.

(** A throw inside the [try] block happens before any state write. *)
Lemma tryBlock_thrown tick o st st' :
  tryBlock tick o st = Thrown st' -> st' = st.
Proof.
  unfold tryBlock. intros H.
  destruct o as [|[text|]| |data]; try congruence.
  destruct (get data "articles") as [arts|] eqn:Harts; [|congruence].
  match type of H with
  | match ?X with _ => _ end = _ => destruct X as [mapped|]; [|congruence]
  end.
  destruct (get_some_any _ _ "summary" _ Harts) as [summary Hsum].
  rewrite Hsum in H.
  destruct (truthy summary) eqn:Ht; [|discriminate].
  unfold summaryField in H.
  destruct (get_truthy summary "positive" Ht) as [p Hp].
  destruct (get_truthy summary "negative" Ht) as [n Hn].
  destruct (get_truthy summary "neutral" Ht) as [u Hu].
  rewrite Hp, Hn, Hu in H. discriminate.
Qed.

Lemma tryBlock_throws_anywhere tick o st1 st2 st' :
  tryBlock tick o st1 = Thrown st' -> tryBlock tick o st2 = Thrown st2.
Proof.
  unfold tryBlock. intros H.
  destruct o as [|[text|]| |data]; try congruence.
  destruct (get data "articles") as [arts|] eqn:Harts; [|congruence].
  match type of H with
  | match ?X with _ => _ end = _ => destruct X as [mapped|]; [|congruence]
  end.
  destruct (get_some_any _ _ "summary" _ Harts) as [summary Hsum].
  rewrite Hsum in H |- *.
  destruct (truthy summary) eqn:Ht; [|discriminate].
  unfold summaryField in H.
  destruct (get_truthy summary "positive" Ht) as [p Hp].
  destruct (get_truthy summary "negative" Ht) as [n Hn].
  destruct (get_truthy summary "neutral" Ht) as [u Hu].
  rewrite Hp, Hn, Hu in H. discriminate.
Qed.

Lemma failure_any_state tick o st1 st2 f :
  failure tick o st1 = Some f -> failure tick o st2 = Some f.
Proof.
  unfold failure. intros H.
  assert (Hthrow : forall st', tryBlock tick o st1 = Thrown st' ->
                               tryBlock tick o st2 = Thrown st2)
    by (intros st'; apply tryBlock_throws_anywhere).
  destruct o as [|[text|]| |data]; try exact H;
    destruct (tryBlock tick _ st1) eqn:H1; try discriminate;
    rewrite (Hthrow _ eq_refl); exact H.
Qed.

(** A failed query writes the message of its kind and clears the busy
    flag; it writes nothing else. *)
Lemma resume_on_failure tick o st f :
  failure tick o st = Some f ->
  analyzeHeadline_resume tick o st
  = setIsLoading false (setErrorMsg (Some (failureMsg f)) st).
Proof.
  unfold failure, analyzeHeadline_resume. intros H.
  destruct (tryBlock tick o st) as [st'|st'] eqn:Htry.
  - destruct o as [|[text|]| |data]; try discriminate.
    injection H as <-. simpl in Htry. injection Htry as <-. reflexivity.
  - rewrite (tryBlock_thrown _ _ _ _ Htry).
    destruct o as [|[text|]| |data]; try (injection H as <-; reflexivity).
    simpl in Htry. discriminate.
Qed.

Lemma analyzeHeadline_on_failure tick o st f :
  trim (st_headline st) <> "" ->
  failure tick o st = Some f ->
  analyzeHeadline tick o st
  = setIsLoading false
      (setErrorMsg (Some (failureMsg f)) (setErrorMsg None (setIsLoading true st))).
Proof.
  intros Hq Hf. unfold analyzeHeadline, analyzeHeadline_begin.
  destruct (String.eqb_spec (trim (st_headline st)) ""); [contradiction|].
  apply resume_on_failure. eapply failure_any_state. exact Hf.
Qed.

(** C2, as amended: whenever a query fails, by a failure the service
    reports or by a transport failure, the Summary is left exactly as it
    was before the call. *)
Theorem failure_keeps_summary tick o st f :
  trim (st_headline st) <> "" ->
  failure tick o st = Some f ->
  st_summary (analyzeHeadline tick o st) = st_summary st.
Proof.
  intros Hq Hf. now rewrite (analyzeHeadline_on_failure _ _ _ _ Hq Hf).
Qed.

Lemma mapArticles_throws tick l :
  forall k i a,
    nth_error l i = Some a ->
    mapArticle (tick (k + i)%nat) a = None ->
    mapArticles tick k l = None.
Proof.
  induction l as [|a0 l IH]; intros k i a Hnth Hthrow.
  - destruct i; discriminate.
  - destruct i as [|i]; simpl in Hnth.
    + injection Hnth as ->. rewrite Nat.add_0_r in Hthrow.
      simpl. now rewrite Hthrow.
    + simpl. destruct (mapArticle (tick k) a0); [|reflexivity].
      rewrite (IH (S k) i a Hnth); [reflexivity|].
      replace (S k + i)%nat with (k + S i)%nat by lia. exact Hthrow.
Qed.

Lemma mapArticles_none tick l :
  forall k,
    mapArticles tick k l = None ->
    exists i a, nth_error l i = Some a /\ mapArticle (tick (k + i)%nat) a = None.
Proof.
  induction l as [|a0 l IH]; intros k H; simpl in H; [discriminate|].
  destruct (mapArticle (tick k) a0) as [r|] eqn:Hr.
  - destruct (mapArticles tick (S k) l) as [rs|] eqn:Hrs; [discriminate|].
    destruct (IH (S k) Hrs) as (i & a & Hnth & Hthrow).
    exists (S i), a. split; [exact Hnth|].
    replace (k + S i)%nat with (S k + i)%nat by lia. exact Hthrow.
  - exists 0%nat, a0. split; [reflexivity|]. now rewrite Nat.add_0_r.
Qed.

Lemma get_none (v : JSValue) (k : string) :
  get v k = None -> v = JNull \/ v = JUndefined.
Proof. destruct v; simpl; intros H; try discriminate; auto. Qed.

(** The failures told by what came back are the failures of the code. *)
Lemma transportFails_failure tick o st :
  transportFails tick o -> failure tick o st = Some TransportFailure.
Proof.
  intros H. destruct H as [| | |data Hd|data arts Ha Ht Hn|data l i a Ha Hnth Hthrow];
    try reflexivity.
  - destruct Hd as [-> | ->]; reflexivity.
  - unfold failure, tryBlock, or_else. rewrite Ha, Ht.
    destruct arts; try reflexivity. exfalso. now apply (Hn elems).
  - unfold failure, tryBlock, or_else. rewrite Ha. simpl.
    now rewrite (mapArticles_throws tick l 0 i a Hnth Hthrow).
Qed.

Lemma failure_transportFails tick o st :
  failure tick o st = Some TransportFailure -> transportFails tick o.
Proof.
  destruct o as [|[text|]| |data];
    [intros _; apply fetch_rejected | discriminate
    | intros _; apply body_unreadable | intros _; apply body_not_json | ].
  unfold failure. destruct (tryBlock tick (OkJson data) st) as [st'|st'] eqn:Htry;
    [discriminate|]. intros _.
  unfold tryBlock in Htry.
  destruct (get data "articles") as [arts|] eqn:Harts;
    [|apply payload_absent; eapply get_none; exact Harts].
  unfold or_else in Htry. destruct (truthy arts) eqn:Ht.
  - destruct arts as [| | | | |l| |];
      try (eapply articles_not_array; [exact Harts|exact Ht|intros l0; discriminate]).
    destruct (mapArticles tick 0 l) as [rs|] eqn:Hmap.
    + exfalso.
      destruct (get_some_any _ _ "summary" _ Harts) as [summary Hsum].
      rewrite Hsum in Htry.
      destruct (truthy summary) eqn:Hs; [|discriminate].
      unfold summaryField in Htry.
      destruct (get_truthy summary "positive" Hs) as [p Hp].
      destruct (get_truthy summary "negative" Hs) as [n Hn].
      destruct (get_truthy summary "neutral" Hs) as [u Hu].
      rewrite Hp, Hn, Hu in Htry. discriminate.
    + destruct (mapArticles_none tick l 0 Hmap) as (i & a & Hnth & Hthrow).
      eapply article_throws; [exact Harts|exact Hnth|exact Hthrow].
  - exfalso. cbn [mapArticles] in Htry.
    destruct (get_some_any _ _ "summary" _ Harts) as [summary Hsum].
    rewrite Hsum in Htry.
    destruct (truthy summary) eqn:Hs; [|discriminate].
    unfold summaryField in Htry.
    destruct (get_truthy summary "positive" Hs) as [p Hp].
    destruct (get_truthy summary "negative" Hs) as [n Hn].
    destruct (get_truthy summary "neutral" Hs) as [u Hu].
    rewrite Hp, Hn, Hu in Htry. discriminate.
Qed.

Lemma failure_serviceFails tick o st :
  failure tick o st = Some ServiceFailure <-> serviceFails o.
Proof.
  unfold serviceFails. split.
  - intros H. destruct o as [|[text|]| |data].
    + discriminate H.
    + eauto.
    + discriminate H.
    + discriminate H.
    + unfold failure in H.
      destruct (tryBlock tick (OkJson data) st); discriminate H.
  - intros [text ->]. reflexivity.
Qed.

(** C5: on both failure paths of the query the canonical results are
    exactly what they were before the call, and the error state holds a
    fixed message.  A failure the service reports (a response that is not
    ok) gives the backend-error message; a transport failure (a rejected
    fetch, a body that cannot be read or is not JSON, a malformed payload)
    gives the distinct service-unreachable message.  These two kinds are
    all the failures the code knows. *)
Theorem failure_keeps_results_and_sets_message tick st :
  trim (st_headline st) <> "" ->
  (forall o, serviceFails o ->
     st_results (analyzeHeadline tick o st) = st_results st /\
     st_errorMsg (analyzeHeadline tick o st)
     = Some "Backend returned an error. Check the Flask console.") /\
  (forall o, transportFails tick o ->
     st_results (analyzeHeadline tick o st) = st_results st /\
     st_errorMsg (analyzeHeadline tick o st)
     = Some "Could not reach the backend. Is python app.py running on port 5000?") /\
  (forall o f, failure tick o st = Some f ->
     st_results (analyzeHeadline tick o st) = st_results st /\
     st_errorMsg (analyzeHeadline tick o st) = Some (failureMsg f)) /\
  (forall o, failure tick o st = Some ServiceFailure <-> serviceFails o) /\
  (forall o, failure tick o st = Some TransportFailure <-> transportFails tick o) /\
  backendErrorMsg <> unreachableMsg.
Proof.
  intros Hq.
  assert (Hgen : forall o f, failure tick o st = Some f ->
            st_results (analyzeHeadline tick o st) = st_results st /\
            st_errorMsg (analyzeHeadline tick o st) = Some (failureMsg f)).
  { intros o f Hf. rewrite (analyzeHeadline_on_failure _ _ _ _ Hq Hf).
    split; reflexivity. }
  split; [|split; [|split; [exact Hgen|split; [|split]]]].
  - intros o Ho. apply (Hgen o ServiceFailure). now apply failure_serviceFails.
  - intros o Ho. apply (Hgen o TransportFailure). now apply transportFails_failure.
  - intros o. apply failure_serviceFails.
  - intros o. split; [apply failure_transportFails|apply transportFails_failure].
  - discriminate.
Qed.

(** The busy flag is cleared on every path. *)
Lemma resume_clears_busy tick o st :
  st_isLoading (analyzeHeadline_resume tick o st) = false.
Proof. reflexivity. Qed.

End ClientFacts.

(** Which outcomes are failures. *)
Lemma failure_cases {E : Engine} tick st :
  failure tick FetchRejected st = Some TransportFailure /\
  failure tick BodyNotJson st = Some TransportFailure /\
  failure tick (NotOk None) st = Some TransportFailure /\
  (forall text, failure tick (NotOk (Some text)) st = Some ServiceFailure) /\
  failure tick (OkJson JNull) st = Some TransportFailure /\
  failure tick (OkJson (JObject [("articles", JString "none")])) st
  = Some TransportFailure /\
  failure tick (OkJson (JObject [("articles", JArray [JNull])])) st
  = Some TransportFailure /\
  failure tick (OkJson (JObject [])) st = None.
Proof. repeat split. Qed.

(** C2, counterexample: after a failed query, of either kind, the Summary
    of the earlier query is still there. *)
Lemma failed_query_keeps_summary :
  failure (E := exampleEngine) exampleTick FetchRejected exampleState
  = Some TransportFailure /\
  st_summary (analyzeHeadline (E := exampleEngine) exampleTick FetchRejected exampleState)
  = Some exampleSummary /\
  failure (E := exampleEngine) exampleTick (NotOk (Some "500")) exampleState
  = Some ServiceFailure /\
  st_summary (analyzeHeadline (E := exampleEngine) exampleTick (NotOk (Some "500"))
                exampleState)
  = Some exampleSummary /\
  Some exampleSummary <> None.
Proof. repeat split. discriminate. Qed.

Lemma failure_keeps_summary_witness :
  st_summary (analyzeHeadline (E := exampleEngine) exampleTick BodyNotJson exampleState)
  = st_summary exampleState.
Proof.
  apply (failure_keeps_summary (E := exampleEngine) exampleTick BodyNotJson
           exampleState TransportFailure).
  - discriminate.
  - reflexivity.
Defined.

Lemma failure_keeps_results_witness :
  (forall o, serviceFails o ->
     st_results (analyzeHeadline (E := exampleEngine) exampleTick o exampleState)
     = st_results exampleState /\
     st_errorMsg (analyzeHeadline (E := exampleEngine) exampleTick o exampleState)
     = Some "Backend returned an error. Check the Flask console.") /\
  (forall o, transportFails (E := exampleEngine) exampleTick o ->
     st_results (analyzeHeadline (E := exampleEngine) exampleTick o exampleState)
     = st_results exampleState /\
     st_errorMsg (analyzeHeadline (E := exampleEngine) exampleTick o exampleState)
     = Some "Could not reach the backend. Is python app.py running on port 5000?") /\
  (forall o f, failure (E := exampleEngine) exampleTick o exampleState = Some f ->
     st_results (analyzeHeadline (E := exampleEngine) exampleTick o exampleState)
     = st_results exampleState /\
     st_errorMsg (analyzeHeadline (E := exampleEngine) exampleTick o exampleState)
     = Some (failureMsg f)) /\
  (forall o, failure (E := exampleEngine) exampleTick o exampleState
             = Some ServiceFailure <-> serviceFails o) /\
  (forall o, failure (E := exampleEngine) exampleTick o exampleState
             = Some TransportFailure
             <-> transportFails (E := exampleEngine) exampleTick o) /\
  backendErrorMsg <> unreachableMsg.
Proof.
  apply (failure_keeps_results_and_sets_message (E := exampleEngine) exampleTick
           exampleState).
  discriminate.
Defined.

(** A rejected fetch, a body that is not JSON and a payload with a [null]
    article, run: the earlier results stay and the message is the one of an
    unreachable service. *)
Example transport_failures_run :
  let after o := analyzeHeadline (E := exampleEngine) exampleTick o exampleState in
  let nullArticle := OkJson (JObject [("articles", JArray [JNull])]) in
  map (fun o => (st_results (after o), st_errorMsg (after o)))
    [FetchRejected; BodyNotJson; NotOk None; OkJson JNull; nullArticle]
  = repeat ([teslaRecord], Some unreachableMsg) 5 /\
  (st_results (after (NotOk (Some "500"))), st_errorMsg (after (NotOk (Some "500"))))
  = ([teslaRecord], Some backendErrorMsg).
Proof. split; reflexivity. Qed.

(** *** Triggers while a query is in flight *)

(** The button is inert while busy. *)
Lemma click_while_busy_is_inert (st : State) :
  st_isLoading st = true -> dispatch ClickAnalyze st = (st, None).
Proof. intros H. unfold dispatch. now rewrite H. Qed.

(** The Enter key is not: [analyzeHeadline] does not read the busy flag. *)
Lemma enter_ignores_busy_flag (st : State) :
  trim (st_headline st) <> "" ->
  exists st' req, dispatch (KeyDown "Enter") st = (st', Some req).
Proof.
  intros H. unfold dispatch, analyzeHeadline_begin. simpl.
  destruct (String.eqb_spec (trim (st_headline st)) ""); [contradiction|].
  eauto.
Qed.

(** C6, on the code: with a query in flight, pressing Enter in the input
    sends a second request. *)
Theorem enter_while_busy_sends_request :
  st_isLoading busyState = true /\
  dispatch (KeyDown "Enter") busyState
  = (busyState, Some {| query := "Tesla stock crashes 15%"; limit := 10 |}) /\
  dispatch ClickAnalyze busyState = (busyState, None).
Proof. repeat split. Qed.

(* ================================================================= *)
(** ** The view *)

Section SortFacts.
Context {A : Type} (comparefn : A -> A -> option Z).


Lemma insert_perm x l : Permutation (x :: l) (insert comparefn x l).
Proof.
  induction l as [|y l IH]; simpl; [reflexivity|].
  destruct (SortCompare comparefn x y <=? 0); [reflexivity|].
  rewrite perm_swap. now constructor.
Qed.

Lemma sort_perm l : Permutation l (sort comparefn l).
Proof.
  induction l as [|x l IH]; simpl; [constructor|].
  rewrite <- insert_perm. now constructor.
Qed.

Lemma insert_Forall (P : A -> Prop) x l :
  P x -> Forall P l -> Forall P (insert comparefn x l).
Proof.
  intros Hx Hl. eapply Permutation_Forall; [apply insert_perm|]. now constructor.
Qed.



(** The comparator never puts each of two elements strictly after the
    other. *)
Hypothesis comparefn_asym :
  forall x y, 0 < SortCompare comparefn x y -> SortCompare comparefn y x <= 0.




End SortFacts.


Lemma filter_id {A : Type} (p : A -> bool) (l : list A) :
  Forall (fun x => p x = true) l -> filter p l = l.
Proof.
  induction 1 as [|x l Hx Hl IH]; simpl; [reflexivity|]. now rewrite Hx, IH.
Qed.


(** *** Sorting by sentiment *)

Lemma orZero_order (s : Sentiment) : orZero (order s) = order s.
Proof. destruct s; reflexivity. Qed.

Lemma SortCompare_sentiment (x y : AnalysisResult) :
  SortCompare (compareFn bySentiment) x y = rank y - rank x.
Proof. unfold SortCompare, compareFn, rank. now rewrite !orZero_order. Qed.

Lemma insert_by_rank x l :
  StronglySorted (fun a b => rank b <= rank a) l ->
  StronglySorted (fun a b => rank b <= rank a) (insert (compareFn bySentiment) x l).
Proof.
  induction 1 as [|y l Hl IH Hall]; simpl.
  - repeat constructor.
  - rewrite SortCompare_sentiment.
    destruct (Z.leb_spec (rank y - rank x) 0) as [Hle|Hgt].
    + constructor; [now constructor|].
      constructor; [lia|].
      eapply Forall_impl; [|exact Hall]. simpl. intros; lia.
    + constructor; [exact IH|].
      apply insert_Forall; [lia|exact Hall].
Qed.

Lemma sort_by_rank l :
  StronglySorted (fun a b => rank b <= rank a) (sort (compareFn bySentiment) l).
Proof.
  induction l as [|x l IH]; simpl; [constructor|]. now apply insert_by_rank.
Qed.

Lemma StronglySorted_precedes {A : Type} (R : A -> A -> Prop) (l : list A) a b :
  StronglySorted R l -> precedes a b l -> R a b.
Proof.
  intros Hs (l1 & l2 & l3 & ->).
  induction l1 as [|x l1 IH]; simpl in Hs.
  - apply StronglySorted_inv in Hs. destruct Hs as [_ Hall].
    rewrite Forall_forall in Hall. apply Hall.
    apply in_or_app. right. now left.
  - apply StronglySorted_inv in Hs. now apply IH.
Qed.

(** Records of one rank come out in the order they went in. *)
Lemma insert_keeps_rank_order k x l :
  filter (fun r => rank r =? k) (insert (compareFn bySentiment) x l)
  = filter (fun r => rank r =? k) (x :: l).
Proof.
  induction l as [|y l IH]; [reflexivity|].
  simpl insert. rewrite SortCompare_sentiment.
  destruct (Z.leb_spec (rank y - rank x) 0) as [Hle|Hgt]; [reflexivity|].
  simpl in *. rewrite IH.
  destruct (Z.eqb_spec (rank x) k), (Z.eqb_spec (rank y) k); try reflexivity.
  lia.
Qed.

Lemma sort_keeps_rank_order k l :
  filter (fun r => rank r =? k) (sort (compareFn bySentiment) l)
  = filter (fun r => rank r =? k) l.
Proof.
  induction l as [|x l IH]; [reflexivity|].
  simpl sort. rewrite insert_keeps_rank_order. simpl. now rewrite IH.
Qed.

Lemma rank_positive (r : AnalysisResult) : rank r = 3 <-> sentiment r = Some positive.
Proof.
  unfold rank. destruct (sentiment r) as [[| |]|]; simpl; split;
    intros H; try reflexivity; try discriminate.
Qed.

(** C8: sorting by sentiment gives, for every record sequence, the same
    records in the descending order positive > neutral > negative, a record
    without sentiment being compared as neutral and left as it is: no
    negative, neutral or sentiment-less record precedes a positive one, and
    records that compare equal keep their relative input order. *)
Theorem sort_by_sentiment (l : list AnalysisResult) :
  let sorted := sortedResults bySentiment l in
  Permutation l sorted /\
  (forall a b, precedes a b sorted -> rank b <= rank a) /\
  (forall a b, precedes a b sorted ->
               sentiment b = Some positive -> sentiment a = Some positive) /\
  (forall k, filter (fun r => rank r =? k) sorted = filter (fun r => rank r =? k) l) /\
  (forall r, rank r = match sentiment r with
                      | Some positive => 3
                      | Some neutral | None => 2
                      | Some negative => 1
                      end).
Proof.
  unfold sortedResults. repeat split.
  - apply sort_perm.
  - intros a b H.
    exact (StronglySorted_precedes _ _ _ _ (sort_by_rank l) H).
  - intros a b H Hb.
    pose proof (StronglySorted_precedes _ _ _ _ (sort_by_rank l) H) as Hle.
    simpl in Hle. apply rank_positive in Hb. apply rank_positive.
    assert (rank a <= 3) by (unfold rank; destruct (orNeutral (sentiment a)); simpl; lia).
    lia.
  - intros k. apply sort_keeps_rank_order.
  - intros r. unfold rank. destruct (sentiment r) as [[| |]|]; reflexivity.
Qed.

(* ================================================================= *)
(** ** The export and its reader *)

Lemma append_assoc (a b c : string) : (a ++ b) ++ c = a ++ (b ++ c).
Proof. induction a as [|x a IH]; simpl; [reflexivity|]. now rewrite IH. Qed.

Lemma append_empty (a : string) : a ++ "" = a.
Proof. induction a as [|x a IH]; simpl; [reflexivity|]. now rewrite IH. Qed.

Lemma concat_cons (sep x : string) (xs : list string) :
  xs <> [] -> String.concat sep (x :: xs) = x ++ sep ++ String.concat sep xs.
Proof. destruct xs; [congruence|reflexivity]. Qed.

(** Inside a quoted field the reader undoes [replaceQuotes]. *)
Lemma readCsv_quoted (s : string) : forall field row rows rest,
  readCsv Quoted field row rows (replaceQuotes s ++ String dquote rest)
  = readCsv QuoteSeen (field ++ s) row rows rest.
Proof.
  induction s as [|c s IH]; intros field row rows rest; simpl.
  - now rewrite append_empty.
  - destruct (Ascii.eqb c dquote) eqn:Hc; simpl.
    + apply Ascii.eqb_eq in Hc. subst c. simpl.
      rewrite IH, append_assoc. reflexivity.
    + rewrite Hc, IH, append_assoc. reflexivity.
Qed.

(** A quoted field at the start of a field, followed by a comma. *)
Lemma readCsv_quoteField_comma (s : string) row rows rest :
  readCsv FieldStart "" row rows (quoteField s ++ String comma rest)
  = readCsv FieldStart "" (s :: row) rows rest.
Proof.
  unfold quoteField. simpl. rewrite append_assoc. simpl.
  rewrite readCsv_quoted. reflexivity.
Qed.

Lemma readCsv_quoteField_newline (s : string) row rows rest :
  readCsv FieldStart "" row rows (quoteField s ++ String newline rest)
  = readCsv FieldStart "" [] (rev (s :: row) :: rows) rest.
Proof.
  unfold quoteField. simpl. rewrite append_assoc. simpl.
  rewrite readCsv_quoted. reflexivity.
Qed.

Lemma readCsv_quoteField_end (s : string) row rows :
  readCsv FieldStart "" row rows (quoteField s)
  = rev (rev (s :: row) :: rows).
Proof.
  unfold quoteField. simpl.
  rewrite readCsv_quoted. reflexivity.
Qed.

(** Whatever is read next, the finished rows and the finished fields of the
    current row stay. *)
Lemma readCsv_keeps (input : string) : forall st field row rows,
  exists fields more,
    readCsv st field row rows input
    = (rev rows ++ (rev row ++ fields) :: more)%list.
Proof.
  induction input as [|c input IH]; intros st field row rows.
  - exists [field], []. simpl. reflexivity.
  - assert (Hfield : forall st' f',
              exists fields more,
                readCsv st' f' row rows input
                = (rev rows ++ (rev row ++ fields) :: more)%list)
      by (intros; apply IH).
    assert (Hcomma : exists fields more,
              readCsv FieldStart "" (field :: row) rows input
              = (rev rows ++ (rev row ++ fields) :: more)%list).
    { destruct (IH FieldStart "" (field :: row) rows) as (fs & more & H).
      exists (field :: fs), more. rewrite H. simpl.
      now rewrite <- app_assoc. }
    assert (Hnl : exists fields more,
              readCsv FieldStart "" [] (rev (field :: row) :: rows) input
              = (rev rows ++ (rev row ++ fields) :: more)%list).
    { destruct (IH FieldStart "" [] (rev (field :: row) :: rows)) as (fs & more & H).
      exists [field], ((fs) :: more). rewrite H. simpl.
      now rewrite <- app_assoc. }
    simpl.
    destruct st; destruct (Ascii.eqb c dquote), (Ascii.eqb c comma),
      (Ascii.eqb c newline); auto.
Qed.

(** Unquoted text without quotes and line breaks stays within the row. *)
Lemma readCsv_plain (s : string) : forall st field row rows rest,
  plain s = true ->
  st = FieldStart \/ st = Unquoted ->
  exists st' field' row',
    (st' = FieldStart \/ st' = Unquoted) /\
    readCsv st field row rows (s ++ rest) = readCsv st' field' row' rows rest.
Proof.
  induction s as [|c s IH]; intros st field row rows rest Hp Hst.
  - exists st, field, row. auto.
  - simpl in Hp. apply andb_true_iff in Hp. destruct Hp as [Hc Hp].
    apply andb_true_iff in Hc. destruct Hc as [Hq Hn].
    apply negb_true_iff in Hq, Hn.
    simpl. rewrite Hn, Hq.
    destruct (Ascii.eqb c comma).
    + destruct Hst as [-> | ->]; apply IH; auto.
    + destruct Hst as [-> | ->]; apply IH; auto.
Qed.

(** An unquoted field without commas, quotes and line breaks, followed by
    a comma. *)
Lemma readCsv_simple (s : string) : forall st field row rows rest,
  simple s = true ->
  st = FieldStart \/ st = Unquoted ->
  readCsv st field row rows (s ++ String comma rest)
  = readCsv FieldStart "" ((field ++ s) :: row) rows rest.
Proof.
  induction s as [|c s IH]; intros st field row rows rest Hp Hst.
  - simpl. rewrite append_empty. destruct Hst as [-> | ->]; reflexivity.
  - simpl in Hp. apply andb_true_iff in Hp. destruct Hp as [Hc Hp].
    apply andb_true_iff in Hc. destruct Hc as [Hc Hn].
    apply andb_true_iff in Hc. destruct Hc as [Hc Hq].
    apply negb_true_iff in Hq, Hn, Hc.
    simpl. rewrite Hn, Hq, Hc.
    destruct Hst as [-> | ->]; rewrite IH by auto; now rewrite append_assoc.
Qed.

Lemma plain_of_simple (s : string) : simple s = true -> plain s = true.
Proof.
  induction s as [|c s IH]; simpl; [reflexivity|].
  intros H. repeat (apply andb_true_iff in H; destruct H as [H ?]).
  repeat (apply andb_true_iff; split); auto.
Qed.

Lemma readCsv_plain_comma (s : string) st field row rows rest :
  plain s = true ->
  st = FieldStart \/ st = Unquoted ->
  exists row',
    readCsv st field row rows (s ++ String comma rest)
    = readCsv FieldStart "" row' rows rest.
Proof.
  intros Hp Hst.
  destruct (readCsv_plain s st field row rows (String comma rest) Hp Hst)
    as (st' & f' & row' & Hst' & ->).
  exists (f' :: row'). destruct Hst' as [-> | ->]; reflexivity.
Qed.

Section ExportFacts.
Context {E : Engine}.

(** The text of one record's row. *)
Let line (r : AnalysisResult) : string :=
  String.concat (String comma EmptyString) (csvRow r).

Lemma line_text (r : AnalysisResult) (tail : string) :
  line r ++ tail
  = quoteField (headline r) ++ String comma
      (sentimentField r ++ String comma
         (toLocaleDateString (timestamp r) ++ String comma
            (toLocaleTimeString (timestamp r) ++ String comma
               (linkField r ++ String comma
                  (quoteField (explanation r) ++ tail))))).
Proof.
  unfold line, csvRow. cbn [String.concat].
  repeat (rewrite append_assoc; cbn [append]). reflexivity.
Qed.

Lemma sentimentField_simple (r : AnalysisResult) : simple (sentimentField r) = true.
Proof. unfold sentimentField. destruct (sentiment r) as [[| |]|]; reflexivity. Qed.

(** A row whose unquoted fields are plain is read as one row. *)
Lemma readCsv_line_plain (r : AnalysisResult) rows rest :
  plainRecord r = true ->
  exists fields,
    readCsv FieldStart "" [] rows (line r ++ String newline rest)
    = readCsv FieldStart "" [] (fields :: rows) rest.
Proof.
  unfold plainRecord. intros H.
  apply andb_true_iff in H. destruct H as [H Hl].
  apply andb_true_iff in H. destruct H as [Hd Ht].
  rewrite line_text, readCsv_quoteField_comma.
  destruct (readCsv_plain_comma (sentimentField r) FieldStart "" [headline r] rows
              (toLocaleDateString (timestamp r) ++ String comma
                 (toLocaleTimeString (timestamp r) ++ String comma
                    (linkField r ++ String comma
                       (quoteField (explanation r) ++ String newline rest))))
              (plain_of_simple _ (sentimentField_simple r)) (or_introl eq_refl))
    as [row1 ->].
  destruct (readCsv_plain_comma _ FieldStart "" row1 rows
              (toLocaleTimeString (timestamp r) ++ String comma
                 (linkField r ++ String comma
                    (quoteField (explanation r) ++ String newline rest)))
              Hd (or_introl eq_refl)) as [row2 ->].
  destruct (readCsv_plain_comma _ FieldStart "" row2 rows
              (linkField r ++ String comma
                 (quoteField (explanation r) ++ String newline rest))
              Ht (or_introl eq_refl)) as [row3 ->].
  destruct (readCsv_plain_comma _ FieldStart "" row3 rows
              (quoteField (explanation r) ++ String newline rest)
              Hl (or_introl eq_refl)) as [row4 ->].
  rewrite readCsv_quoteField_newline. eauto.
Qed.

(** A row whose unquoted fields are simple is read back field by field. *)
Lemma readCsv_line_simple_newline (r : AnalysisResult) rows rest :
  simpleRecord r = true ->
  readCsv FieldStart "" [] rows (line r ++ String newline rest)
  = readCsv FieldStart "" [] (rowValues r :: rows) rest.
Proof.
  unfold simpleRecord. intros H.
  apply andb_true_iff in H. destruct H as [H Hl].
  apply andb_true_iff in H. destruct H as [Hd Ht].
  rewrite line_text, readCsv_quoteField_comma.
  rewrite (readCsv_simple _ FieldStart) by (auto using sentimentField_simple).
  rewrite (readCsv_simple _ FieldStart) by auto.
  rewrite (readCsv_simple _ FieldStart) by auto.
  rewrite (readCsv_simple _ FieldStart) by auto.
  rewrite readCsv_quoteField_newline. reflexivity.
Qed.

Lemma readCsv_line_simple_end (r : AnalysisResult) rows :
  simpleRecord r = true ->
  readCsv FieldStart "" [] rows (line r) = rev (rowValues r :: rows).
Proof.
  unfold simpleRecord. intros H.
  apply andb_true_iff in H. destruct H as [H Hl].
  apply andb_true_iff in H. destruct H as [Hd Ht].
  rewrite <- (append_empty (line r)).
  rewrite line_text, readCsv_quoteField_comma.
  rewrite (readCsv_simple _ FieldStart) by (auto using sentimentField_simple).
  rewrite (readCsv_simple _ FieldStart) by auto.
  rewrite (readCsv_simple _ FieldStart) by auto.
  rewrite (readCsv_simple _ FieldStart) by auto.
  rewrite append_empty, readCsv_quoteField_end. reflexivity.
Qed.

(** The text of the rows of some records, read from the start of a row:
    after any number of plain rows, the next row starts with its record's
    headline. *)
Lemma readCsv_lines_headline (pre : list AnalysisResult) :
  forall r post rows,
    Forall (fun x => plainRecord x = true) pre ->
    exists added fields more,
      List.length added = List.length pre /\
      readCsv FieldStart "" [] rows
        (String.concat (String newline EmptyString)
           (map line (pre ++ r :: post)%list))
      = (rev rows ++ added ++ (headline r :: fields) :: more)%list.
Proof.
  induction pre as [|p pre IH]; intros r post rows Hpre.
  - assert (Htail : exists tail,
               String.concat (String newline EmptyString) (map line ([] ++ r :: post)%list)
               = line r ++ tail).
    { destruct post as [|r' post]; simpl.
      - exists "". now rewrite append_empty.
      - eexists. reflexivity. }
    destruct Htail as [tail ->].
    rewrite line_text, readCsv_quoteField_comma.
    match goal with
    | |- context [readCsv FieldStart "" [headline r] rows ?input] =>
        destruct (readCsv_keeps input FieldStart "" [headline r] rows)
          as (fields & more & ->)
    end.
    exists [], fields, more. split; reflexivity.
  - inversion Hpre as [|? ? Hp Hrest]; subst.
    change (map line ((p :: pre) ++ r :: post)%list)
      with (line p :: map line (pre ++ r :: post)%list).
    rewrite concat_cons by (destruct pre; discriminate).
    cbn [append].
    destruct (readCsv_line_plain p rows
                (String.concat (String newline EmptyString)
                   (map line (pre ++ r :: post)%list)) Hp) as [fields0 ->].
    destruct (IH r post (fields0 :: rows) Hrest)
      as (added & fields & more & Hlen & ->).
    exists (fields0 :: added), fields, more.
    split; [simpl; now rewrite Hlen|].
    simpl. now rewrite <- app_assoc.
Qed.

Lemma readCsv_lines_simple (rs : list AnalysisResult) :
  forall rows,
    rs <> [] ->
    Forall (fun x => simpleRecord x = true) rs ->
    readCsv FieldStart "" [] rows
      (String.concat (String newline EmptyString) (map line rs))
    = (rev rows ++ map rowValues rs)%list.
Proof.
  induction rs as [|r rs IH]; intros rows Hne Hall; [congruence|].
  inversion Hall as [|? ? Hr Hrest]; subst.
  destruct rs as [|r' rs].
  - cbn [map String.concat].
    rewrite readCsv_line_simple_end by exact Hr. reflexivity.
  - change (map line (r :: r' :: rs)) with (line r :: map line (r' :: rs)).
    rewrite concat_cons by discriminate. cbn [append].
    rewrite readCsv_line_simple_newline by exact Hr.
    rewrite IH by (try discriminate; exact Hrest).
    simpl. now rewrite <- app_assoc.
Qed.

(** The exported text: the header line, then the rows' lines. *)
Lemma joinRows_text (rs : list AnalysisResult) :
  rs <> [] ->
  joinRows (csvRows rs)
  = "Headline,Sentiment,Date,Time,Link,Explanation"
    ++ String newline
         (String.concat (String newline EmptyString) (map line rs)).
Proof.
  intros Hne. unfold joinRows, csvRows.
  change (map (String.concat (String comma EmptyString)) (csvHeader :: map csvRow rs))
    with (String.concat (String comma EmptyString) csvHeader
          :: map (String.concat (String comma EmptyString)) (map csvRow rs)).
  rewrite map_map. fold line.
  rewrite concat_cons by (destruct rs; [congruence|discriminate]).
  reflexivity.
Qed.

Lemma parseCsv_header (rest : string) :
  parseCsv ("Headline,Sentiment,Date,Time,Link,Explanation" ++ String newline rest)
  = readCsv FieldStart "" [] [csvHeader] rest.
Proof. reflexivity. Qed.

End ExportFacts.

Lemma exportResults_nonempty {E : Engine} (rs : list AnalysisResult) :
  rs <> [] -> exportResults rs = Some (joinRows (csvRows rs)).
Proof. destruct rs; [congruence|reflexivity]. Qed.

Lemma nth_error_after {A : Type} (rows added : list A) (x : A) (more : list A) :
  nth_error (rows ++ added ++ x :: more) (List.length rows + List.length added)
  = Some x.
Proof.
  rewrite app_assoc, nth_error_app2 by (rewrite length_app; lia).
  rewrite length_app, Nat.sub_diag. reflexivity.
Qed.

(** C9: for every record, whatever its headline holds, embedded double
    quotes included, exporting it and reading the CSV back (splitting while
    respecting double-quote wrapping and doubled-quote escaping) gives the
    header row and then the record's row with the original headline as its
    first field; the same holds for the record at any position of a longer
    export, as long as the unquoted fields of the records before it hold no
    double quote and no line break.  The headline and the explanation are
    the fields written in quotes with their quotes doubled, the other four
    are written as they are. *)
Theorem export_then_parse_headline {E : Engine} (r : AnalysisResult) :
  (exists csv fields more,
     exportResults [r] = Some csv /\
     parseCsv csv = csvHeader :: (headline r :: fields) :: more) /\
  (forall rs i,
     nth_error rs i = Some r ->
     Forall (fun x => plainRecord x = true) (firstn i rs) ->
     exists csv fields,
       exportResults rs = Some csv /\
       nth_error (parseCsv csv) (S i) = Some (headline r :: fields)) /\
  csvRow r = [ quoteField (headline r); sentimentField r;
               toLocaleDateString (timestamp r);
               toLocaleTimeString (timestamp r);
               linkField r; quoteField (explanation r) ].
Proof.
  split; [|split; [|reflexivity]].
  - destruct (readCsv_lines_headline [] r [] [csvHeader] (Forall_nil _))
      as (added & fields & more & Hlen & Hread).
    destruct added; [|discriminate].
    exists (joinRows (csvRows [r])), fields, more.
    split; [reflexivity|].
    rewrite joinRows_text by discriminate.
    rewrite parseCsv_header. exact Hread.
  - intros rs i Hnth Hpre.
    destruct (nth_error_split _ _ Hnth) as (pre & post & -> & Hlen).
    assert (Hfirst : firstn i (pre ++ r :: post) = pre).
    { rewrite firstn_app, <- Hlen, firstn_all, Nat.sub_diag. simpl.
      apply app_nil_r. }
    rewrite Hfirst in Hpre.
    assert (Hne : (pre ++ r :: post)%list <> []) by (destruct pre; discriminate).
    destruct (readCsv_lines_headline pre r post [csvHeader] Hpre)
      as (added & fields & more & Hadded & Hread).
    exists (joinRows (csvRows (pre ++ r :: post))), fields.
    split; [apply exportResults_nonempty; exact Hne|].
    rewrite (joinRows_text _ Hne), parseCsv_header, Hread.
    replace (S i) with (List.length (rev [csvHeader]) + List.length added)%nat
      by (simpl; lia).
    apply nth_error_after.
Qed.

Lemma export_then_parse_witness :
  exists csv fields,
    exportResults (E := exampleEngine) [bareRecord; quotedRecord] = Some csv /\
    nth_error (parseCsv csv) 2 = Some (quotedHeadline :: fields).
Proof.
  apply (proj1 (proj2 (export_then_parse_headline (E := exampleEngine) quotedRecord))
           [bareRecord; quotedRecord] 1%nat).
  - reflexivity.
  - repeat constructor.
Defined.

(** The condition on the earlier records cannot be dropped: a link that is
    a lone double quote, a field the export writes without quotes, opens a
    quoted field for the reader, and the next record's row is swallowed. *)
Example stray_quote_in_link_breaks_later_rows :
  let bad := {| headline := "A"; sentiment := None; timestamp := ValidDate 1;
                explanation := ""; link := Some (String dquote EmptyString) |} in
  plainRecord (E := exampleEngine) bad = false /\
  option_map (fun csv => nth_error (parseCsv csv) 2)
    (exportResults (E := exampleEngine) [bad; quotedRecord])
  = Some None.
Proof. split; reflexivity. Qed.

(** The export of the example, read back. *)
Example export_then_parse_example :
  option_map parseCsv (exportResults (E := exampleEngine) [bareRecord; quotedRecord])
  = Some [ csvHeader;
           ["Markets, mixed"; ""; "Invalid Date"; "Invalid Date"; ""; "Polarity score: "];
           [quotedHeadline; "positive"; "1704067200000"; "1704067200000";
            "https://example.com/a?x=1"; "2"; "Polarity score: 0.500"] ].
Proof. reflexivity. Qed.

(** Nothing is exported when there are no results. *)
Example export_of_nothing {E : Engine} : exportResults [] = None.
Proof. reflexivity. Qed.

(* ================================================================= *)
(** ** From the payload to the declared interface *)

(** A known label survives the normalisation and is read at its type. *)
Lemma known_sentiment_is_typed (s : Sentiment) :
  asSentimentType (or_else (JString (sentimentName s)) (JString "neutral"))
  = Some (Some s).
Proof. destruct s; reflexivity. Qed.

(** The defaulted label is the neutral one. *)
Lemma absent_sentiment_is_typed :
  asSentimentType (or_else JUndefined (JString "neutral")) = Some (Some neutral).
Proof. reflexivity. Qed.

(** The Tesla record has the declared type; a record with a foreign label
    has not. *)
Example tesla_record_is_typed :
  asAnalysisResult teslaRecord
  = Some {| headline := "Tesla stock crashes 15%"; sentiment := Some negative;
            timestamp := ValidDate 1001;
            explanation := "Polarity score: -0.812"; link := None |}.
Proof. reflexivity. Qed.

Example foreign_label_is_not_typed :
  option_map asAnalysisResult
    (mapArticle (E := exampleEngine) 0
       (JObject [("title", JString "Fed holds rates"); ("sentiment", JString "bullish")]))
  = Some None.
Proof. reflexivity. Qed.

(** A successful query replaces the results and adopts the summary, with
    zero for the counts the service omits. *)
Example successful_query :
  analyzeHeadline (E := exampleEngine) exampleTick
    (OkJson (JObject [("articles", JArray [undatedArticle; teslaArticle]);
                      ("summary", JObject [("negative", JNumber (Finite 1))])]))
    exampleState
  = {| st_headline := "Tesla stock crashes 15%";
       st_results := [undatedRecord 1000; teslaRecord];
       st_sortBy := byTime; st_filterBy := all;
       st_isLoading := false; st_errorMsg := None;
       st_summary := Some {| sum_positive := JNumber (Finite 0);
                             sum_negative := JNumber (Finite 1);
                             sum_neutral := JNumber (Finite 0) |} |}.
Proof. reflexivity. Qed.

(** Clearing empties the results and removes summary and error. *)
Lemma clearResults_clears (st : State) :
  st_results (clearResults st) = [] /\
  st_summary (clearResults st) = None /\
  st_errorMsg (clearResults st) = None.
Proof. repeat split. Qed.

(* ================================================================= *)
(** ** Further properties of the query client *)

Section ClientMore.
Context {E : Engine}.

(** What the [try] block does with a payload that normalises. *)
Lemma tryBlock_payload tick data arts l rs summary st :
  get data "articles" = Some arts ->
  or_else arts (JArray []) = JArray l ->
  mapArticles tick 0 l = Some rs ->
  get data "summary" = Some summary ->
  tryBlock tick (OkJson data) st
  = Normal (setSummary
              (if truthy summary
               then match summaryField summary "positive",
                          summaryField summary "negative",
                          summaryField summary "neutral" with
                    | Some p, Some n, Some u =>
                        Some {| sum_positive := p; sum_negative := n;
                                sum_neutral := u |}
                    | _, _, _ => None
                    end
               else None)
              (setResults rs st)).
Proof.
  intros Harts Harr Hmap Hsum. unfold tryBlock.
  rewrite Harts, Harr, Hmap, Hsum.
  destruct (truthy summary) eqn:Ht; [|reflexivity].
  unfold summaryField.
  destruct (get_truthy summary "positive" Ht) as [p ->].
  destruct (get_truthy summary "negative" Ht) as [n ->].
  destruct (get_truthy summary "neutral" Ht) as [u ->].
  reflexivity.
Qed.

Lemma begin_nonblank (st : State) :
  trim (st_headline st) <> "" ->
  analyzeHeadline_begin st
  = (setErrorMsg None (setIsLoading true st),
     Some {| query := trim (st_headline st); limit := 10 |}).
Proof.
  intros H. unfold analyzeHeadline_begin.
  destruct (String.eqb_spec (trim (st_headline st)) ""); [contradiction|reflexivity].
Qed.

(** How a [try] block can end: with the state untouched and a throw, with
    the backend-error message, or with results and summary both written. *)
Lemma tryBlock_cases tick o st :
  tryBlock tick o st = Thrown st \/
  (exists text, o = NotOk (Some text) /\
     tryBlock tick o st
     = Normal (setIsLoading false (setErrorMsg (Some backendErrorMsg) st))) \/
  (exists rs sm, succeedsWith tick o rs sm).
Proof.
  destruct o as [|[text|]| |data]; try (left; reflexivity).
  - right. left. eauto.
  - destruct (get data "articles") as [arts|] eqn:Harts;
      [|left; unfold tryBlock; now rewrite Harts].
    destruct (or_else arts (JArray [])) as [| |b|n|s|l|ps|nm] eqn:Harr;
      try (left; unfold tryBlock; now rewrite Harts, Harr).
    destruct (mapArticles tick 0 l) as [rs|] eqn:Hmap;
      [|left; unfold tryBlock; now rewrite Harts, Harr, Hmap].
    destruct (get_some_any _ _ "summary" _ Harts) as [summary Hsum].
    right. right. eexists. eexists. intros st'.
    apply (tryBlock_payload _ _ _ _ _ _ st' Harts Harr Hmap Hsum).
Qed.

Lemma succeedsWith_no_failure tick o rs sm st :
  succeedsWith tick o rs sm -> failure tick o st = None.
Proof.
  intros H. unfold failure. rewrite (H st).
  destruct o as [|[text|]| |data]; try reflexivity.
  specialize (H initial). simpl in H.
  apply (f_equal (fun c => match c with
                           | Normal s | Thrown s => st_errorMsg s
                           end)) in H.
  discriminate.
Qed.

End ClientMore.

(* ================================================================= *)
(** ** [trim] *)

Lemma trimStart_blank (s : string) : allWhiteSpace s = true -> trimStart s = "".
Proof.
  induction s as [|c s IH]; simpl; [reflexivity|].
  intros H. apply andb_true_iff in H. destruct H as [Hc Hs].
  rewrite Hc. now apply IH.
Qed.

Lemma trimStart_head (s : string) c t :
  trimStart s = String c t -> isWhiteSpace c = false.
Proof.
  induction s as [|c0 s IH]; simpl; [discriminate|].
  destruct (isWhiteSpace c0) eqn:Hc0; [exact IH|].
  intros H. injection H as <- _. exact Hc0.
Qed.

Lemma trimEnd_head (s : string) c :
  isWhiteSpace c = false -> exists t, trimEnd (String c s) = String c t.
Proof.
  intros Hc. simpl. destruct (trimEnd s); [rewrite Hc|]; eauto.
Qed.

Lemma trimEnd_last (s : string) :
  trimEnd s <> "" -> notWhiteSpace (lastChar (trimEnd s)).
Proof.
  induction s as [|c s IH]; simpl; [congruence|].
  destruct (trimEnd s) as [|c' t] eqn:Hs.
  - destruct (isWhiteSpace c) eqn:Hc; [congruence|].
    intros _. exists c. split; [reflexivity|exact Hc].
  - intros _. change (lastChar (String c (String c' t))) with (lastChar (String c' t)).
    apply IH. discriminate.
Qed.

Lemma trim_blank (s : string) : allWhiteSpace s = true -> trim s = "".
Proof. intros H. unfold trim. now rewrite trimStart_blank. Qed.

Lemma trim_ends (s : string) :
  trim s <> "" ->
  notWhiteSpace (firstChar (trim s)) /\ notWhiteSpace (lastChar (trim s)).
Proof.
  unfold trim. intros Hne. split; [|now apply trimEnd_last].
  destruct (trimStart s) as [|c t] eqn:Hs; [simpl in Hne; congruence|].
  pose proof (trimStart_head _ _ _ Hs) as Hc.
  destruct (trimEnd_head t c Hc) as [t' ->].
  exists c. split; [reflexivity|exact Hc].
Qed.

(* ================================================================= *)
(** ** The query, from trigger to final state *)

Section ClientExtras.
Context {E : Engine}.

Lemma failure_state_irrelevant tick o st1 st2 :
  failure tick o st1 = failure tick o st2.
Proof.
  destruct (failure tick o st1) as [f|] eqn:H1.
  - symmetry. eapply failure_any_state. exact H1.
  - destruct (failure tick o st2) as [f|] eqn:H2; [|reflexivity].
    rewrite (failure_any_state _ _ _ st1 _ H2) in H1. discriminate.
Qed.

Lemma resume_on_success tick o rs sm st :
  succeedsWith tick o rs sm ->
  analyzeHeadline_resume tick o st
  = setIsLoading false (setSummary sm (setResults rs st)).
Proof. intros H. unfold analyzeHeadline_resume. now rewrite (H st). Qed.

(** A successful response replaces the results wholesale: whatever the
    state held, the results are the normalised articles of the payload, in
    number equal to the articles, the error of an earlier query is gone and
    the busy flag is cleared. *)
Theorem successful_query_replaces_results tick data arts l rs st :
  trim (st_headline st) <> "" ->
  get data "articles" = Some arts ->
  or_else arts (JArray []) = JArray l ->
  mapArticles tick 0 l = Some rs ->
  let st' := analyzeHeadline tick (OkJson data) st in
  st_results st' = rs /\
  List.length (st_results st') = List.length l /\
  st_errorMsg st' = None /\
  st_isLoading st' = false.
Proof.
  intros Hq Harts Harr Hmap.
  destruct (get_some_any _ _ "summary" _ Harts) as [summary Hsum].
  unfold analyzeHeadline. rewrite (begin_nonblank _ Hq).
  unfold analyzeHeadline_resume.
  rewrite (tryBlock_payload _ _ _ _ _ _ _ Harts Harr Hmap Hsum). simpl.
  repeat split. eapply mapArticles_length. exact Hmap.
Qed.

(** A successful response adopts the summary of the payload, each count
    being the payload's value, or zero where the payload has none or has
    null; a payload without summary, or with a falsy one, clears the
    summary of the earlier query. *)
Theorem summary_adopted_or_cleared tick data arts l rs summary st :
  trim (st_headline st) <> "" ->
  get data "articles" = Some arts ->
  or_else arts (JArray []) = JArray l ->
  mapArticles tick 0 l = Some rs ->
  get data "summary" = Some summary ->
  let st' := analyzeHeadline tick (OkJson data) st in
  (falsy summary -> st_summary st' = None) /\
  (~ falsy summary ->
   exists p n u,
     get summary "positive" = Some p /\
     get summary "negative" = Some n /\
     get summary "neutral" = Some u /\
     st_summary st'
     = Some {| sum_positive := nullish p (JNumber (Finite 0));
               sum_negative := nullish n (JNumber (Finite 0));
               sum_neutral := nullish u (JNumber (Finite 0)) |}).
Proof.
  intros Hq Harts Harr Hmap Hsum.
  unfold analyzeHeadline. rewrite (begin_nonblank _ Hq).
  unfold analyzeHeadline_resume.
  rewrite (tryBlock_payload _ _ _ _ _ _ _ Harts Harr Hmap Hsum). simpl.
  split.
  - intros Hf. apply truthy_false_iff in Hf. now rewrite Hf.
  - intros Hf. apply truthy_true_iff in Hf. rewrite Hf.
    unfold summaryField.
    destruct (get_truthy summary "positive" Hf) as [p Hp].
    destruct (get_truthy summary "negative" Hf) as [n Hn].
    destruct (get_truthy summary "neutral" Hf) as [u Hu].
    rewrite Hp, Hn, Hu. exists p, n, u. repeat split.
Qed.

Lemma resume_frame tick o st :
  st_headline (analyzeHeadline_resume tick o st) = st_headline st /\
  st_sortBy (analyzeHeadline_resume tick o st) = st_sortBy st /\
  st_filterBy (analyzeHeadline_resume tick o st) = st_filterBy st.
Proof.
  destruct (tryBlock_cases tick o st) as [H | [(text & -> & H) | (rs & sm & H)]].
  - unfold analyzeHeadline_resume. rewrite H. repeat split.
  - unfold analyzeHeadline_resume. rewrite H. repeat split.
  - rewrite (resume_on_success _ _ _ _ _ H). repeat split.
Qed.

(** No query, however it ends, touches the text in the input, the sort key
    or the filter; and every query that was sent ends with the busy flag
    cleared. *)
Theorem query_keeps_input_and_controls tick o st :
  let st' := analyzeHeadline tick o st in
  st_headline st' = st_headline st /\
  st_sortBy st' = st_sortBy st /\
  st_filterBy st' = st_filterBy st /\
  (trim (st_headline st) <> "" -> st_isLoading st' = false) /\
  (trim (st_headline st) = "" -> st' = st).
Proof.
  cbv zeta. unfold analyzeHeadline, analyzeHeadline_begin.
  destruct (String.eqb_spec (trim (st_headline st)) "") as [Hq|Hq].
  - repeat split; congruence.
  - destruct (resume_frame tick o (setErrorMsg None (setIsLoading true st)))
      as (H1 & H2 & H3).
    rewrite H1, H2, H3. repeat split; congruence.
Qed.

Lemma errorMsg_after_query tick o st :
  trim (st_headline st) <> "" ->
  st_errorMsg (analyzeHeadline tick o st)
  = match failure tick o st with
    | Some f => Some (failureMsg f)
    | None => None
    end.
Proof.
  intros Hq. unfold analyzeHeadline. rewrite (begin_nonblank _ Hq).
  set (st1 := setErrorMsg None (setIsLoading true st)).
  rewrite (failure_state_irrelevant tick o st st1).
  destruct (failure tick o st1) as [f|] eqn:Hf.
  - now rewrite (resume_on_failure _ _ _ _ Hf).
  - destruct (tryBlock_cases tick o st1) as [H | [(text & -> & H) | (rs & sm & H)]].
    + unfold failure in Hf. rewrite H in Hf.
      destruct o as [|[text|]| |data]; discriminate.
    + discriminate.
    + rewrite (resume_on_success _ _ _ _ _ H). reflexivity.
Qed.

(** After a query that was sent, what the error state holds is told by what
    came back: the backend-error message exactly when the service reported
    a failure, the service-unreachable message exactly when the transport
    failed (a rejected fetch, an unreadable or non-JSON body, a malformed
    payload), and no message exactly when neither happened, whatever
    message an earlier query had left. *)
Theorem error_shown_iff_query_failed tick o st :
  trim (st_headline st) <> "" ->
  (st_errorMsg (analyzeHeadline tick o st) = None
   <-> ~ serviceFails o /\ ~ transportFails tick o) /\
  (st_errorMsg (analyzeHeadline tick o st)
   = Some "Backend returned an error. Check the Flask console."
   <-> serviceFails o) /\
  (st_errorMsg (analyzeHeadline tick o st)
   = Some "Could not reach the backend. Is python app.py running on port 5000?"
   <-> transportFails tick o).
Proof.
  intros Hq. rewrite (errorMsg_after_query _ _ _ Hq).
  pose proof (failure_serviceFails tick o st) as Hs.
  assert (Ht : failure tick o st = Some TransportFailure <-> transportFails tick o)
    by (split; [apply failure_transportFails|apply transportFails_failure]).
  destruct (failure tick o st) as [[|]|]; simpl.
  - split; [|split].
    + split; [discriminate|]. intros [Hns _]. exfalso. apply Hns. now apply Hs.
    + split; [intros _; now apply Hs|reflexivity].
    + split; [discriminate|]. intros H. apply Ht in H. discriminate.
  - split; [|split].
    + split; [discriminate|]. intros [_ Hnt]. exfalso. apply Hnt. now apply Ht.
    + split; [discriminate|]. intros H. apply Hs in H. discriminate.
    + split; [intros _; now apply Ht|reflexivity].
  - split; [|split].
    + split; [|reflexivity]. intros _. split; intros H.
      * apply Hs in H. discriminate.
      * apply Ht in H. discriminate.
    + split; [discriminate|]. intros H. apply Hs in H. discriminate.
    + split; [discriminate|]. intros H. apply Ht in H. discriminate.
Qed.

(** A headline of white space only is no query: neither the button nor any
    key sends a request or changes the state, and [analyzeHeadline] returns
    with the state as it was. *)
Theorem blank_headline_is_inert tick o st :
  allWhiteSpace (st_headline st) = true ->
  analyzeHeadline tick o st = st /\
  dispatch ClickAnalyze st = (st, None) /\
  (forall key, dispatch (KeyDown key) st = (st, None)).
Proof.
  intros H. pose proof (trim_blank _ H) as Ht.
  unfold analyzeHeadline, dispatch, analyzeHeadline_begin. rewrite Ht. simpl.
  repeat split.
  - destruct (st_isLoading st); reflexivity.
  - intros key. destruct (String.eqb key "Enter"); reflexivity.
Qed.

(** Every request that is sent carries the headline without its leading and
    trailing white space, never an empty query, with the limit 10; sending it
    sets the busy flag and removes the error message, and nothing else. *)
Theorem request_carries_trimmed_query ev st st' req :
  dispatch ev st = (st', Some req) ->
  query req = trim (st_headline st) /\
  query req <> "" /\
  notWhiteSpace (firstChar (query req)) /\
  notWhiteSpace (lastChar (query req)) /\
  limit req = 10 /\
  st' = setErrorMsg None (setIsLoading true st).
Proof.
  intros H.
  assert (Hb : analyzeHeadline_begin st = (st', Some req)).
  { destruct ev as [value|key|]; simpl in H.
    - discriminate.
    - destruct (String.eqb key "Enter"); [exact H|discriminate].
    - destruct (st_isLoading st); [discriminate|exact H]. }
  unfold analyzeHeadline_begin in Hb.
  destruct (String.eqb_spec (trim (st_headline st)) "") as [Hq|Hq]; [discriminate|].
  injection Hb as <- <-. simpl.
  destruct (trim_ends _ Hq) as [Hfirst Hlast].
  repeat split; assumption.
Qed.

(** Clearing while a query is in flight does not cancel it: a response
    that succeeds installs its results and summary as if nothing had been
    cleared, and one that fails leaves the cleared state with its error
    message. *)
Theorem clear_does_not_cancel tick o st :
  (failure tick o st = None ->
   st_results (analyzeHeadline_resume tick o (clearResults st))
   = st_results (analyzeHeadline_resume tick o st) /\
   st_summary (analyzeHeadline_resume tick o (clearResults st))
   = st_summary (analyzeHeadline_resume tick o st)) /\
  (forall f, failure tick o st = Some f ->
     st_results (analyzeHeadline_resume tick o (clearResults st)) = [] /\
     st_summary (analyzeHeadline_resume tick o (clearResults st)) = None /\
     st_errorMsg (analyzeHeadline_resume tick o (clearResults st))
     = Some (failureMsg f)).
Proof.
  split.
  - intros Hf.
    destruct (tryBlock_cases tick o st) as [H | [(text & -> & H) | (rs & sm & H)]].
    + unfold failure in Hf. rewrite H in Hf.
      destruct o as [|[text|]| |data]; discriminate.
    + discriminate.
    + rewrite !(resume_on_success _ _ _ _ _ H). split; reflexivity.
  - intros f Hf.
    rewrite (failure_state_irrelevant tick o st (clearResults st)) in Hf.
    rewrite (resume_on_failure _ _ _ _ Hf). repeat split.
Qed.

(** One [null] among the articles fails the whole query: no article of the
    payload reaches the results, and the message is the one of an
    unreachable service. *)
Theorem null_article_fails_the_query tick data arts l st :
  trim (st_headline st) <> "" ->
  get data "articles" = Some arts ->
  or_else arts (JArray []) = JArray l ->
  In JNull l ->
  failure tick (OkJson data) st = Some TransportFailure /\
  st_results (analyzeHeadline tick (OkJson data) st) = st_results st /\
  st_errorMsg (analyzeHeadline tick (OkJson data) st) = Some unreachableMsg.
Proof.
  intros Hq Harts Harr Hin.
  assert (Hmap : forall k, mapArticles tick k l = None).
  { clear Harr. induction l as [|a l IH]; [contradiction|].
    intros k. simpl. destruct Hin as [-> | Hin]; [reflexivity|].
    destruct (mapArticle (tick k) a); [|reflexivity].
    now rewrite (IH Hin). }
  assert (Hf : forall st0, failure tick (OkJson data) st0 = Some TransportFailure).
  { intros st0. unfold failure, tryBlock. now rewrite Harts, Harr, Hmap. }
  split; [apply Hf|].
  rewrite (analyzeHeadline_on_failure _ _ _ _ Hq (Hf st)). split; reflexivity.
Qed.

End ClientExtras.

Lemma successful_query_witness :
  let st' := analyzeHeadline (E := exampleEngine) exampleTick (OkJson goodPayload)
               failedState in
  st_results st' = [undatedRecord 1000; teslaRecord] /\
  List.length (st_results st') = 2%nat /\
  st_errorMsg st' = None /\
  st_isLoading st' = false.
Proof.
  apply (successful_query_replaces_results (E := exampleEngine) exampleTick goodPayload
           (JArray [undatedArticle; teslaArticle]) [undatedArticle; teslaArticle]
           [undatedRecord 1000; teslaRecord] failedState);
    try reflexivity.
  discriminate.
Defined.

Lemma summary_adopted_witness :
  let summary := JObject [("negative", JNumber (Finite 1)); ("neutral", JNull)] in
  let st' := analyzeHeadline (E := exampleEngine) exampleTick (OkJson goodPayload)
               failedState in
  (falsy summary -> st_summary st' = None) /\
  (~ falsy summary ->
   exists p n u,
     get summary "positive" = Some p /\
     get summary "negative" = Some n /\
     get summary "neutral" = Some u /\
     st_summary st'
     = Some {| sum_positive := nullish p (JNumber (Finite 0));
               sum_negative := nullish n (JNumber (Finite 0));
               sum_neutral := nullish u (JNumber (Finite 0)) |}).
Proof.
  apply (summary_adopted_or_cleared (E := exampleEngine) exampleTick goodPayload
           (JArray [undatedArticle; teslaArticle]) [undatedArticle; teslaArticle]
           [undatedRecord 1000; teslaRecord]
           (JObject [("negative", JNumber (Finite 1)); ("neutral", JNull)]) failedState);
    try reflexivity.
  discriminate.
Defined.

Lemma error_shown_witness :
  (st_errorMsg (analyzeHeadline (E := exampleEngine) exampleTick FetchRejected
                  exampleState) = None
   <-> ~ serviceFails FetchRejected
       /\ ~ transportFails (E := exampleEngine) exampleTick FetchRejected) /\
  (st_errorMsg (analyzeHeadline (E := exampleEngine) exampleTick FetchRejected
                  exampleState)
   = Some "Backend returned an error. Check the Flask console."
   <-> serviceFails FetchRejected) /\
  (st_errorMsg (analyzeHeadline (E := exampleEngine) exampleTick FetchRejected
                  exampleState)
   = Some "Could not reach the backend. Is python app.py running on port 5000?"
   <-> transportFails (E := exampleEngine) exampleTick FetchRejected).
Proof.
  apply (error_shown_iff_query_failed (E := exampleEngine) exampleTick FetchRejected
           exampleState).
  discriminate.
Defined.

(** A success after a failure: the message of the failure is gone. *)
Example success_removes_the_message :
  st_errorMsg failedState = Some unreachableMsg /\
  st_errorMsg (analyzeHeadline (E := exampleEngine) exampleTick (OkJson goodPayload)
                 failedState) = None.
Proof. split; reflexivity. Qed.

Lemma blank_headline_witness :
  let st := setHeadline "   " exampleState in
  analyzeHeadline (E := exampleEngine) exampleTick FetchRejected st = st /\
  dispatch ClickAnalyze st = (st, None) /\
  (forall key, dispatch (KeyDown key) st = (st, None)).
Proof.
  apply (blank_headline_is_inert (E := exampleEngine) exampleTick FetchRejected
           (setHeadline "   " exampleState)).
  reflexivity.
Defined.

Lemma request_witness :
  let st := setHeadline "  Gold surges " failedState in
  let req := {| query := "Gold surges"; limit := 10 |} in
  query req = trim (st_headline st) /\
  query req <> "" /\
  notWhiteSpace (firstChar (query req)) /\
  notWhiteSpace (lastChar (query req)) /\
  limit req = 10 /\
  setErrorMsg None (setIsLoading true st) = setErrorMsg None (setIsLoading true st).
Proof.
  apply (request_carries_trimmed_query (KeyDown "Enter")
           (setHeadline "  Gold surges " failedState)
           (setErrorMsg None (setIsLoading true (setHeadline "  Gold surges " failedState)))
           {| query := "Gold surges"; limit := 10 |}).
  reflexivity.
Defined.

Lemma null_article_witness :
  failure (E := exampleEngine) exampleTick (OkJson payloadWithNull) exampleState
  = Some TransportFailure /\
  st_results (analyzeHeadline (E := exampleEngine) exampleTick (OkJson payloadWithNull)
                exampleState) = st_results exampleState /\
  st_errorMsg (analyzeHeadline (E := exampleEngine) exampleTick (OkJson payloadWithNull)
                 exampleState) = Some unreachableMsg.
Proof.
  apply (null_article_fails_the_query (E := exampleEngine) exampleTick payloadWithNull
           (JArray [teslaArticle; JNull]) [teslaArticle; JNull] exampleState).
  - discriminate.
  - reflexivity.
  - reflexivity.
  - right. left. reflexivity.
Defined.

(* ================================================================= *)
(** ** Sorting by a key *)

Section KeySort.
Context {A : Type} (key : A -> Z) (comparefn : A -> A -> option Z).
Hypothesis comparefn_key :
  forall x y, SortCompare comparefn x y = key y - key x.

Let descending (a b : A) : Prop := key b <= key a.

Lemma insert_descending x l :
  StronglySorted descending l -> StronglySorted descending (insert comparefn x l).
Proof.
  induction 1 as [|y l Hl IH Hall]; simpl.
  - repeat constructor.
  - rewrite comparefn_key.
    destruct (Z.leb_spec (key y - key x) 0) as [Hle|Hgt].
    + constructor; [now constructor|].
      constructor; [unfold descending; lia|].
      eapply Forall_impl; [|exact Hall]. unfold descending. intros; lia.
    + constructor; [exact IH|].
      apply insert_Forall; [unfold descending; lia|exact Hall].
Qed.

Lemma sort_descending l : StronglySorted descending (sort comparefn l).
Proof.
  induction l as [|x l IH]; simpl; [constructor|]. now apply insert_descending.
Qed.

Lemma insert_keeps_key_order k x l :
  filter (fun r => key r =? k) (insert comparefn x l)
  = filter (fun r => key r =? k) (x :: l).
Proof.
  induction l as [|y l IH]; [reflexivity|].
  simpl insert. rewrite comparefn_key.
  destruct (Z.leb_spec (key y - key x) 0) as [Hle|Hgt]; [reflexivity|].
  simpl in *. rewrite IH.
  destruct (Z.eqb_spec (key x) k), (Z.eqb_spec (key y) k); try reflexivity.
  lia.
Qed.

Lemma sort_keeps_key_order k l :
  filter (fun r => key r =? k) (sort comparefn l) = filter (fun r => key r =? k) l.
Proof.
  induction l as [|x l IH]; [reflexivity|].
  simpl sort. rewrite insert_keeps_key_order. simpl. now rewrite IH.
Qed.

Lemma insert_first x l :
  Forall (fun z => key z <= key x) l -> insert comparefn x l = x :: l.
Proof.
  destruct 1 as [|y l Hy Hl]; [reflexivity|].
  simpl. rewrite comparefn_key.
  destruct (Z.leb_spec (key y - key x) 0); [reflexivity|lia].
Qed.

Lemma filter_insert (p : A -> bool) x l :
  StronglySorted descending l ->
  filter p (insert comparefn x l)
  = if p x then insert comparefn x (filter p l) else filter p l.
Proof.
  induction 1 as [|y l Hl IH Hall].
  - simpl. destruct (p x); reflexivity.
  - simpl insert. rewrite comparefn_key.
    destruct (Z.leb_spec (key y - key x) 0) as [Hle|Hgt].
    + simpl filter. destruct (p x) eqn:Hx; [|reflexivity].
      destruct (p y) eqn:Hy.
      * simpl insert. rewrite comparefn_key.
        destruct (Z.leb_spec (key y - key x) 0); [reflexivity|lia].
      * symmetry. apply insert_first.
        rewrite Forall_forall in *. intros z Hz.
        apply filter_In in Hz. destruct Hz as [Hz _].
        specialize (Hall z Hz). unfold descending in Hall. lia.
    + simpl filter. destruct (p y) eqn:Hy.
      * rewrite IH. destruct (p x) eqn:Hx; [|reflexivity].
        simpl insert. rewrite comparefn_key.
        destruct (Z.leb_spec (key y - key x) 0); [lia|reflexivity].
      * exact IH.
Qed.

Lemma filter_sort (p : A -> bool) l :
  filter p (sort comparefn l) = sort comparefn (filter p l).
Proof.
  induction l as [|x l IH]; [reflexivity|].
  simpl sort. rewrite filter_insert by apply sort_descending.
  simpl filter. destruct (p x); simpl; now rewrite IH.
Qed.

End KeySort.

Lemma insert_ext {A : Type} (c1 c2 : A -> A -> option Z) x l :
  Forall (fun y => SortCompare c1 x y = SortCompare c2 x y) l ->
  insert c1 x l = insert c2 x l.
Proof.
  induction 1 as [|y l Hy Hl IH]; [reflexivity|].
  simpl. rewrite Hy, IH. reflexivity.
Qed.

(** [sort] asks its comparator about elements of the list only. *)
Lemma sort_ext {A : Type} (c1 c2 : A -> A -> option Z) l :
  (forall x y, In x l -> In y l -> SortCompare c1 x y = SortCompare c2 x y) ->
  sort c1 l = sort c2 l.
Proof.
  induction l as [|x l IH]; intros H; [reflexivity|].
  simpl. rewrite <- IH by (intros; apply H; now right).
  apply insert_ext. rewrite Forall_forall. intros y Hy.
  apply H; [now left|]. right.
  eapply Permutation_in; [symmetry; apply sort_perm|exact Hy].
Qed.

Lemma byTimeOf_key (x y : AnalysisResult) :
  SortCompare byTimeOf x y = timeOf y - timeOf x.
Proof. reflexivity. Qed.

Lemma sort_by_time_valid (s : SortKey) (l : list AnalysisResult) :
  s <> bySentiment ->
  Forall validTimestamp l ->
  sort (compareFn s) l = sort byTimeOf l.
Proof.
  intros Hs Hl. apply sort_ext. intros x y Hx Hy.
  rewrite Forall_forall in Hl.
  destruct (Hl x Hx) as [tx Htx]. destruct (Hl y Hy) as [ty Hty].
  unfold SortCompare, compareFn, byTimeOf, timeOf. rewrite Htx, Hty.
  destruct s; [reflexivity|reflexivity|congruence].
Qed.

Lemma filter_valid (p : AnalysisResult -> bool) l :
  Forall validTimestamp l -> Forall validTimestamp (filter p l).
Proof.
  intros H. rewrite Forall_forall in *. intros x Hx.
  apply filter_In in Hx. now apply H.
Qed.

(* ================================================================= *)
(** ** Further properties of the view *)

(** The view shows exactly the records of the canonical set that pass the
    filter, whatever the sort key: under a sentiment filter every shown
    record carries that sentiment, so a record without sentiment is shown
    under the filter all only, and under all the view is a rearrangement of
    the whole set. *)
Theorem view_shows_matching_records (R : list AnalysisResult) (f : Filter)
  (s : SortKey) :
  (forall r, In r (project R f s) <-> In r R /\ keeps f r = true) /\
  (forall x r, f = only x -> In r (project R f s) -> sentiment r = Some x) /\
  Permutation R (project R all s) /\
  (List.length (project R f s) <= List.length R)%nat.
Proof.
  unfold project, sortedResults, filteredResults.
  assert (Hin : forall r, In r (sort (compareFn s) (filter (keeps f) R))
                          <-> In r R /\ keeps f r = true).
  { intros r. rewrite <- filter_In. split; apply Permutation_in;
      [symmetry|]; apply sort_perm. }
  split; [exact Hin|]. split; [|split].
  - intros x r -> Hr. apply Hin in Hr. destruct Hr as [_ Hk].
    unfold keeps in Hk. destruct (sentiment r) as [y|]; [|discriminate].
    destruct y, x; try discriminate; reflexivity.
  - rewrite <- sort_perm. rewrite filter_id; [reflexivity|].
    rewrite Forall_forall. reflexivity.
  - rewrite <- (Permutation_length (sort_perm (compareFn s) _)).
    apply filter_length_le.
Qed.

(** Sorting by date, or by time, which is the same, puts records with
    valid timestamps newest first and keeps the input order of records of
    equal time; no record is lost or altered. *)
Theorem sort_by_date_newest_first (s : SortKey) (l : list AnalysisResult) :
  s <> bySentiment ->
  Forall validTimestamp l ->
  let sorted := sortedResults s l in
  Permutation l sorted /\
  (forall a b, precedes a b sorted -> timeOf b <= timeOf a) /\
  (forall t, filter (fun r => timeOf r =? t) sorted
             = filter (fun r => timeOf r =? t) l) /\
  sortedResults byDate l = sortedResults byTime l.
Proof.
  intros Hs Hl. unfold sortedResults.
  split; [apply sort_perm|]. split; [|split; [|reflexivity]].
  - intros a b H. rewrite (sort_by_time_valid s l Hs Hl) in H.
    exact (StronglySorted_precedes _ _ _ _
             (sort_descending timeOf byTimeOf byTimeOf_key l) H).
  - intros t. rewrite (sort_by_time_valid s l Hs Hl).
    apply (sort_keeps_key_order timeOf byTimeOf byTimeOf_key).
Qed.

(** The two controls are independent: filtering the sorted records gives
    the view, which sorts the filtered records; for the date and time keys
    this is stated for records with valid timestamps. *)
Theorem filter_and_sort_commute (R : list AnalysisResult) (f : Filter) (s : SortKey) :
  (s <> bySentiment -> Forall validTimestamp R) ->
  filteredResults f (sortedResults s R) = project R f s.
Proof.
  intros Hvalid. unfold project, sortedResults, filteredResults.
  destruct s.
  - rewrite (sort_by_time_valid byDate R) by (try discriminate; apply Hvalid; discriminate).
    rewrite (sort_by_time_valid byDate (filter _ R))
      by (try discriminate; apply filter_valid, Hvalid; discriminate).
    apply (filter_sort timeOf byTimeOf byTimeOf_key).
  - rewrite (sort_by_time_valid byTime R) by (try discriminate; apply Hvalid; discriminate).
    rewrite (sort_by_time_valid byTime (filter _ R))
      by (try discriminate; apply filter_valid, Hvalid; discriminate).
    apply (filter_sort timeOf byTimeOf byTimeOf_key).
  - apply (filter_sort rank (compareFn bySentiment) SortCompare_sentiment).
Qed.

Lemma sort_by_date_witness :
  let sorted := sortedResults byDate [olderRecord; newerRecord] in
  Permutation [olderRecord; newerRecord] sorted /\
  (forall a b, precedes a b sorted -> timeOf b <= timeOf a) /\
  (forall t, filter (fun r => timeOf r =? t) sorted
             = filter (fun r => timeOf r =? t) [olderRecord; newerRecord]) /\
  sortedResults byDate [olderRecord; newerRecord]
  = sortedResults byTime [olderRecord; newerRecord].
Proof.
  apply (sort_by_date_newest_first byDate [olderRecord; newerRecord]).
  - discriminate.
  - repeat constructor; eexists; reflexivity.
Defined.

Lemma filter_and_sort_witness :
  filteredResults (only negative) (sortedResults byTime [olderRecord; newerRecord])
  = project [olderRecord; newerRecord] (only negative) byTime.
Proof.
  apply (filter_and_sort_commute [olderRecord; newerRecord] (only negative) byTime).
  intros _. repeat constructor; eexists; reflexivity.
Defined.

(** With an Invalid Date among the records the order of the two steps
    matters, and the component filters first. *)
Example invalid_date_breaks_commutation :
  let undated := {| headline := "Undated"; sentiment := Some positive;
                    timestamp := InvalidDate; explanation := "x"; link := None |} in
  let R := [olderRecord; undated; newerRecord] in
  project R (only negative) byTime = [olderRecord] /\
  filteredResults all (sortedResults byTime R) = R /\
  project [olderRecord; newerRecord] all byTime = [newerRecord; olderRecord].
Proof. repeat split. Qed.

(* ================================================================= *)
(** ** Further properties of the normalisation *)

Section NormalizerExtras.
Context {E : Engine}.

Lemma mapArticles_Forall (P : MappedResult -> Prop) tick l :
  (forall now a r, mapArticle now a = Some r -> P r) ->
  forall k rs, mapArticles tick k l = Some rs -> Forall P rs.
Proof.
  intros HP. induction l as [|a l IH]; intros k rs H; simpl in H.
  - injection H as <-. constructor.
  - destruct (mapArticle (tick k) a) as [r|] eqn:Hr; [|discriminate].
    destruct (mapArticles tick (S k) l) as [rs'|] eqn:Hrs; [|discriminate].
    injection H as <-. constructor; [eapply HP; exact Hr|eapply IH; exact Hrs].
Qed.

(** The normalisation keeps the articles' order and number, and copies the
    title into the headline and the link into the link as they are: an
    article without title gives a record whose headline is [undefined]. *)
Theorem normalize_keeps_order_and_fields tick articles rs :
  mapArticles tick 0 articles = Some rs ->
  List.length rs = List.length articles /\
  (forall i a, nth_error articles i = Some a ->
     exists r, nth_error rs i = Some r /\
               get a "title" = Some (m_headline r) /\
               get a "link" = Some (m_link r)) /\
  (forall i props, nth_error articles i = Some (JObject props) ->
     lookup "title" props = None ->
     exists r, nth_error rs i = Some r /\ m_headline r = JUndefined).
Proof.
  intros Hmap. split; [eapply mapArticles_length; exact Hmap|].
  assert (Hfields : forall i a, nth_error articles i = Some a ->
            exists r, nth_error rs i = Some r /\
                      get a "title" = Some (m_headline r) /\
                      get a "link" = Some (m_link r)).
  { intros i a Hnth.
    destruct (mapArticles_nth _ _ _ _ _ _ Hmap Hnth) as [r [Hr Hone]].
    destruct (mapArticle_fields _ _ _ Hone)
      as (s & p & e & t & l & _ & _ & _ & Ht & Hl & Hh & Hlk & _).
    exists r. subst. auto. }
  split; [exact Hfields|].
  intros i props Hnth Hnone.
  destruct (Hfields _ _ Hnth) as (r & Hr & Ht & _).
  exists r. split; [exact Hr|].
  rewrite (get_absent _ _ Hnone) in Ht. congruence.
Qed.

Lemma mapArticle_wellFormed now a m :
  mapArticle now a = Some m -> wellFormed m.
Proof.
  intros H.
  destruct (mapArticle_fields _ _ _ H)
    as (s & p & e & t & l & _ & _ & _ & _ & _ & _ & _ & Hs & _ & He).
  assert (Hts : truthy (m_sentiment m) = true).
  { rewrite Hs. unfold or_else. destruct (truthy s) eqn:Hsv; [exact Hsv|reflexivity]. }
  assert (Hte : truthy (m_explanation m) = true).
  { destruct (truthy e) eqn:Hev.
    - injection He as <-. exact Hev.
    - destruct (get a "polarity") as [pol|]; [|discriminate].
      destruct (polarityText pol) as [txt|]; [|discriminate].
      injection He as <-. reflexivity. }
  split; [exact Hts|]. split; [exact Hte|].
  intros r Hr. unfold asAnalysisResult in Hr.
  destruct (m_headline m); try discriminate.
  destruct (asSentimentType (m_sentiment m)) as [sv|] eqn:Hsv; [|discriminate].
  destruct (m_explanation m) as [| | | |ex| | |]; try discriminate.
  destruct (match m_link m with
            | JUndefined => Some None
            | JString s1 => Some (Some s1)
            | _ => None
            end); [|discriminate].
  injection Hr as <-. simpl. split.
  - intros ->. destruct (m_sentiment m) as [| | | |x| | |]; simpl in *; try discriminate.
    destruct (String.eqb x "positive"); [discriminate|].
    destruct (String.eqb x "negative"); [discriminate|].
    destruct (String.eqb x "neutral"); discriminate.
  - intros ->. discriminate.
Qed.

(** Every record the normalisation builds has a truthy sentiment and a
    truthy explanation; read at the declared type, its sentiment is never
    absent and its explanation never empty. *)
Theorem normalized_records_are_well_formed tick articles rs :
  mapArticles tick 0 articles = Some rs -> Forall wellFormed rs.
Proof.
  apply mapArticles_Forall. intros now a r. apply mapArticle_wellFormed.
Qed.

Lemma TimeClip_range (n : Number) t :
  TimeClip n = ValidDate t -> Z.abs t <= maxTime.
Proof.
  destruct n as [neg|q]; simpl; [discriminate|].
  destruct (Qle_bool (Qabs q) (inject_Z maxTime)) eqn:Hle; [|discriminate].
  intros H. injection H as <-.
  apply Qle_bool_iff in Hle. destruct q as [num den].
  unfold Qle in Hle. cbn [Qnum Qden Qabs inject_Z] in Hle.
  rewrite Z.mul_1_r in Hle. cbn [Qnum Qden].
  rewrite <- (Z.quot_abs num (Z.pos den)) by discriminate.
  change (Z.abs (Z.pos den)) with (Z.pos den).
  rewrite Z.quot_div_nonneg by lia.
  apply Z.div_le_upper_bound; [lia|].
  rewrite Z.mul_comm. exact Hle.
Qed.

Lemma parseDate_range (s : string) t :
  parseDate s = ValidDate t -> Z.abs t <= maxTime.
Proof.
  unfold parseDate, TimeClipZ. destruct (Date_parse s) as [t0|]; [|discriminate].
  destruct (Z.leb_spec (Z.abs t0) maxTime) as [Hle|Hgt]; [|discriminate].
  intros Heq. injection Heq as <-. exact Hle.
Qed.

Lemma new_Date_range (v : JSValue) t :
  new_Date v = Some (ValidDate t) -> Z.abs t <= maxTime.
Proof.
  destruct v as [| |b|n|s|l|ps|nm]; simpl; intros H; try discriminate.
  - injection H as <-. unfold maxTime. lia.
  - injection H as <-. unfold maxTime. destruct b; lia.
  - injection H as H. eapply TimeClip_range. exact H.
  - injection H as H. eapply parseDate_range. exact H.
  - match type of H with
    | match ?X with _ => _ end = _ => destruct X as [s|]; [|discriminate]
    end.
    injection H as H. eapply parseDate_range. exact H.
  - match type of H with
    | match ?X with _ => _ end = _ => destruct X as [s|]; [|discriminate]
    end.
    injection H as H. eapply parseDate_range. exact H.
  - injection H as H. eapply parseDate_range. exact H.
Qed.

(** A timestamp taken from a published field is an Invalid Date or lies
    within 8.64e15 milliseconds of the epoch, whatever the field holds, so
    the differences the date comparator forms stay below 1.728e16 in
    magnitude. *)
Theorem published_timestamp_in_range now a m p :
  mapArticle now a = Some m ->
  get a "published" = Some p ->
  ~ falsy p ->
  m_timestamp m = InvalidDate \/
  exists t, m_timestamp m = ValidDate t /\ Z.abs t <= 8640000000000000.
Proof.
  intros Hm Hp Hf.
  destruct (mapArticle_fields _ _ _ Hm)
    as (s & p' & e & t & l & _ & Hp' & _ & _ & _ & _ & _ & _ & Hts & _).
  rewrite Hp in Hp'. injection Hp' as <-.
  apply truthy_true_iff in Hf. rewrite Hf in Hts.
  destruct (m_timestamp m) as [t0|]; [right|left; reflexivity].
  exists t0. split; [reflexivity|]. exact (new_Date_range _ _ Hts).
Qed.

Lemma nearest_thousandth_nonneg (x : Q) : (0 <= x)%Q -> 0 <= nearest_thousandth x.
Proof.
  destruct x as [num den]. unfold Qle, nearest_thousandth. cbn [Qnum Qden].
  intros H. apply Z.div_pos; lia.
Qed.

(** The polarity of a synthesised explanation is the number, in
    thousandths, nearest to the polarity's magnitude, the larger one on a
    tie, printed with three decimals and with a minus sign exactly when the
    polarity is negative. *)
Theorem polarity_rounded_to_nearest_thousandth now a m e q :
  mapArticle now a = Some m ->
  get a "explanation" = Some e ->
  falsy e ->
  get a "polarity" = Some (JNumber (Finite q)) ->
  (Qabs q < 10 ^ 21)%Q ->
  exists txt n,
    m_explanation m = JString ("Polarity score: " ++ txt) /\
    formatsThousandths txt (Qnum q <? 0) (Z.to_N n) /\
    0 <= n /\
    (inject_Z n - (1 # 2) <= 1000 * Qabs q)%Q /\
    (1000 * Qabs q < inject_Z n + (1 # 2))%Q.
Proof.
  intros Hm He Hf Hpol Hq.
  destruct (mapArticle_fields _ _ _ Hm)
    as (s & p & e' & t & l & _ & _ & He' & _ & _ & _ & _ & _ & _ & Hex).
  rewrite He in He'. injection He' as <-.
  apply truthy_false_iff in Hf. rewrite Hf, Hpol in Hex.
  cbn [polarityText] in Hex.
  exists (toFixed3 (Finite q)), (nearest_thousandth (Qabs q)).
  split; [congruence|]. split; [apply toFixed3_format; exact Hq|].
  split; [apply nearest_thousandth_nonneg, Qabs_nonneg|].
  apply nearest_thousandth_spec.
Qed.

End NormalizerExtras.

Section ContractArticle.
Context {E : Engine}.

Lemma get_object props k : get (JObject props) k = Some (propertyOf props k).
Proof. reflexivity. Qed.

Lemma asSentimentType_name (x : Sentiment) :
  asSentimentType (JString (sentimentName x)) = Some (Some x).
Proof. destruct x; reflexivity. Qed.

Lemma truthy_name (x : Sentiment) : truthy (JString (sentimentName x)) = true.
Proof. destruct x; reflexivity. Qed.

Lemma sentimentName_inj (x y : Sentiment) : sentimentName x = sentimentName y -> x = y.
Proof. destruct x, y; simpl; intros H; try reflexivity; discriminate. Qed.

(** An article that keeps to the service contract (a string title, one of
    the three labels or none, primitive published and polarity fields, a
    string explanation or none, a string link or none) gives a record of
    the declared type [AnalysisResult], with the article's title, its label
    or neutral, and its link. *)
Theorem contract_article_is_typed now props t :
  propertyOf props "title" = JString t ->
  (falsy (propertyOf props "sentiment") \/
   exists x, propertyOf props "sentiment" = JString (sentimentName x)) ->
  primitive (propertyOf props "published") = true ->
  primitive (propertyOf props "polarity") = true ->
  (falsy (propertyOf props "explanation") \/
   exists e, propertyOf props "explanation" = JString e) ->
  (propertyOf props "link" = JUndefined \/
   exists u, propertyOf props "link" = JString u) ->
  exists m r,
    mapArticle now (JObject props) = Some m /\
    asAnalysisResult m = Some r /\
    headline r = t /\
    timestamp r = m_timestamp m /\
    (forall x, propertyOf props "sentiment" = JString (sentimentName x) ->
               sentiment r = Some x) /\
    (falsy (propertyOf props "sentiment") -> sentiment r = Some neutral) /\
    (forall u, propertyOf props "link" = JString u -> link r = Some u) /\
    (propertyOf props "link" = JUndefined -> link r = None).
Proof.
  intros Ht Hs Hp Hpol He Hl.
  destruct (mapArticle_returns now props Hp Hpol) as [m Hm].
  destruct (mapArticle_fields _ _ _ Hm)
    as (s & p & e & t' & l & Hgs & _ & Hge & Hgt & Hgl & Hh & Hlk & Hsent & _ & Hex).
  rewrite get_object in Hgs, Hge, Hgt, Hgl.
  assert (Es : s = propertyOf props "sentiment") by congruence.
  assert (Ee : e = propertyOf props "explanation") by congruence.
  assert (Et : t' = JString t) by congruence.
  assert (El : l = propertyOf props "link") by congruence.
  rewrite Es in Hsent. rewrite Ee in Hex. rewrite Et in Hh. rewrite El in Hlk.
  clear Hgs Hge Hgt Hgl Es Ee Et El.
  assert (Hexp : exists ex, m_explanation m = JString ex).
  { destruct (truthy (propertyOf props "explanation")) eqn:Htr.
    - destruct He as [Hf | [e0 He0]].
      + apply truthy_false_iff in Hf. congruence.
      + exists e0. congruence.
    - destruct (get (JObject props) "polarity") as [pol|]; [|discriminate].
      destruct (polarityText pol) as [txt|]; [|discriminate].
      eexists. symmetry. injection Hex as Hex. exact Hex. }
  destruct Hexp as [ex Hexp].
  assert (Hty : exists sx,
            asSentimentType (m_sentiment m) = Some (Some sx) /\
            (forall x, propertyOf props "sentiment" = JString (sentimentName x) -> sx = x) /\
            (falsy (propertyOf props "sentiment") -> sx = neutral)).
  { rewrite Hsent. unfold or_else. destruct Hs as [Hf | [x Hx]].
    - pose proof Hf as Hf'. apply truthy_false_iff in Hf'. rewrite Hf'.
      exists neutral. split; [reflexivity|]. split; [|reflexivity].
      intros x Hx. rewrite Hx, truthy_name in Hf'. discriminate.
    - rewrite Hx, truthy_name. exists x. split; [apply asSentimentType_name|].
      split.
      + intros y Hy. injection Hy as Hy. now apply sentimentName_inj.
      + intros Hf. apply truthy_false_iff in Hf.
        rewrite truthy_name in Hf. discriminate. }
  destruct Hty as (sx & Hsx & Hknown & Hfalsy).
  assert (Hlink : exists lx,
            match m_link m with
            | JUndefined => Some None
            | JString s1 => Some (Some s1)
            | _ => None
            end = Some lx /\
            (forall u, propertyOf props "link" = JString u -> lx = Some u) /\
            (propertyOf props "link" = JUndefined -> lx = None)).
  { rewrite Hlk. destruct Hl as [Hu | [u Hu]]; rewrite Hu.
    - exists None. repeat split. intros u H. discriminate.
    - exists (Some u). repeat split; [|discriminate].
      intros u' H. injection H as <-. reflexivity. }
  destruct Hlink as (lx & Hlx & Hlu & Hln).
  exists m.
  exists {| headline := t; sentiment := Some sx; timestamp := m_timestamp m;
            explanation := ex; link := lx |}.
  split; [exact Hm|]. split.
  - unfold asAnalysisResult. rewrite Hh, Hsx, Hexp, Hlx. reflexivity.
  - simpl. repeat split.
    + intros x Hx. f_equal. now apply Hknown.
    + intros Hf. f_equal. now apply Hfalsy.
    + exact Hlu.
    + exact Hln.
Qed.

End ContractArticle.

Lemma normalize_keeps_order_witness :
  List.length [undatedRecord 1000; teslaRecord]
  = List.length [undatedArticle; teslaArticle] /\
  (forall i a, nth_error [undatedArticle; teslaArticle] i = Some a ->
     exists r, nth_error [undatedRecord 1000; teslaRecord] i = Some r /\
               get a "title" = Some (m_headline r) /\
               get a "link" = Some (m_link r)) /\
  (forall i props, nth_error [undatedArticle; teslaArticle] i = Some (JObject props) ->
     lookup "title" props = None ->
     exists r, nth_error [undatedRecord 1000; teslaRecord] i = Some r /\
               m_headline r = JUndefined).
Proof.
  apply (normalize_keeps_order_and_fields (E := exampleEngine) exampleTick
           [undatedArticle; teslaArticle] [undatedRecord 1000; teslaRecord]).
  reflexivity.
Defined.

Lemma normalized_records_witness :
  Forall wellFormed [undatedRecord 1000; teslaRecord].
Proof.
  apply (normalized_records_are_well_formed (E := exampleEngine) exampleTick
           [undatedArticle; teslaArticle] [undatedRecord 1000; teslaRecord]).
  reflexivity.
Defined.

Lemma published_timestamp_witness :
  m_timestamp
    {| m_headline := JString "Gold prices surge after Fed cuts rates";
       m_sentiment := JString "positive";
       m_timestamp := ValidDate 1704067200000;
       m_explanation := JString "Polarity score: 0.500";
       m_link := JString "https://example.com/gold" |} = InvalidDate \/
  exists t,
    m_timestamp
      {| m_headline := JString "Gold prices surge after Fed cuts rates";
         m_sentiment := JString "positive";
         m_timestamp := ValidDate 1704067200000;
         m_explanation := JString "Polarity score: 0.500";
         m_link := JString "https://example.com/gold" |} = ValidDate t /\
    Z.abs t <= 8640000000000000.
Proof.
  apply (published_timestamp_in_range (E := exampleEngine) 5 contractArticle _
           (JString "2024-01-01T00:00:00.000Z")).
  - reflexivity.
  - reflexivity.
  - intros [H|[H|[H|[H|[q [H _]]]]]]; discriminate.
Defined.

Lemma polarity_rounded_witness :
  exists txt n,
    m_explanation teslaRecord = JString ("Polarity score: " ++ txt) /\
    formatsThousandths txt (Qnum minus0812 <? 0) (Z.to_N n) /\
    0 <= n /\
    (inject_Z n - (1 # 2) <= 1000 * Qabs minus0812)%Q /\
    (1000 * Qabs minus0812 < inject_Z n + (1 # 2))%Q.
Proof.
  apply (polarity_rounded_to_nearest_thousandth (E := exampleEngine) 1001 teslaArticle
           teslaRecord JUndefined minus0812).
  - reflexivity.
  - reflexivity.
  - left. reflexivity.
  - reflexivity.
  - reflexivity.
Defined.

Lemma contract_article_witness :
  exists m r,
    mapArticle (E := exampleEngine) 5 contractArticle = Some m /\
    asAnalysisResult m = Some r /\
    headline r = "Gold prices surge after Fed cuts rates" /\
    timestamp r = m_timestamp m /\
    (forall x, JString "positive" = JString (sentimentName x) -> sentiment r = Some x) /\
    (falsy (JString "positive") -> sentiment r = Some neutral) /\
    (forall u, JString "https://example.com/gold" = JString u -> link r = Some u) /\
    (JString "https://example.com/gold" = JUndefined -> link r = None).
Proof.
  apply (contract_article_is_typed (E := exampleEngine) 5
           [("title", JString "Gold prices surge after Fed cuts rates");
            ("sentiment", JString "positive");
            ("published", JString "2024-01-01T00:00:00.000Z");
            ("polarity", JNumber (Finite (1 # 2)));
            ("link", JString "https://example.com/gold")]).
  - reflexivity.
  - right. exists positive. reflexivity.
  - reflexivity.
  - reflexivity.
  - left. left. reflexivity.
  - right. eexists. reflexivity.
Defined.

(* ================================================================= *)
(** ** Further properties of the export *)

(** Quoting is undone by reading: a field written by [quoteField] is read
    back as the text it was made from, whatever the text holds, double
    quotes, commas and line breaks included. *)
Theorem quoteField_round_trip (s : string) : parseCsv (quoteField s) = [[s]].
Proof. unfold parseCsv. rewrite readCsv_quoteField_end. reflexivity. Qed.

Lemma traverse_none {A B : Type} (f : A -> option B) (l : list A) x :
  In x l -> f x = None -> traverse f l = None.
Proof.
  induction l as [|y l IH]; simpl; [contradiction|].
  intros [-> | Hin] Hx.
  - now rewrite Hx.
  - destruct (f y); [|reflexivity]. now rewrite (IH Hin Hx).
Qed.

Lemma traverse_map_some {A B C : Type} (f : B -> option C) (g : A -> B)
  (h : A -> C) (l : list A) :
  (forall x, f (g x) = Some (h x)) -> traverse f (map g l) = Some (map h l).
Proof.
  intros H. induction l as [|x l IH]; simpl; [reflexivity|].
  now rewrite H, IH.
Qed.

Lemma traverse_Forall2 {A B C : Type} (f : A -> option C) (g : B -> C)
  (R : A -> B -> Prop) (la : list A) (lb : list B) :
  (forall a b, R a b -> f a = Some (g b)) ->
  Forall2 R la lb -> traverse f la = Some (map g lb).
Proof.
  intros H. induction 1 as [|a b la lb Hab Hl IH]; simpl; [reflexivity|].
  now rewrite (H _ _ Hab), IH.
Qed.

Section RunTimeExportFacts.
Context {E : Engine}.

Lemma joinArray_strings (l : list string) :
  joinArray (map JString l) = Some (String.concat (String comma EmptyString) l).
Proof.
  unfold joinArray.
  rewrite (traverse_map_some joinElement JString (fun s => s)) by reflexivity.
  now rewrite map_id.
Qed.

Lemma or_else_label (v : JSValue) (sx : SentimentType) :
  asSentimentType v = Some sx ->
  or_else v (JString "")
  = JString (match sx with Some s => sentimentName s | None => "" end).
Proof.
  destruct v as [| | | |x| | |]; simpl; try discriminate.
  - intros H. injection H as <-. reflexivity.
  - destruct (String.eqb_spec x "positive") as [->|];
      [intros H; injection H as <-; reflexivity|].
    destruct (String.eqb_spec x "negative") as [->|];
      [intros H; injection H as <-; reflexivity|].
    destruct (String.eqb_spec x "neutral") as [->|];
      [intros H; injection H as <-; reflexivity|discriminate].
Qed.

Lemma mappedRow_typed (m : MappedResult) (r : AnalysisResult) :
  asAnalysisResult m = Some r -> mappedRow m = Some (map JString (csvRow r)).
Proof.
  unfold asAnalysisResult, mappedRow, quoteValue. intros H.
  destruct (m_headline m) as [| | | |h| | |]; try discriminate.
  destruct (asSentimentType (m_sentiment m)) as [sx|] eqn:Hs; [|discriminate].
  destruct (m_explanation m) as [| | | |ex| | |]; try discriminate.
  rewrite (or_else_label _ _ Hs).
  destruct (m_link m) as [| | | |lk| | |]; try discriminate;
    injection H as <-; unfold csvRow, sentimentField, linkField;
    cbn [map headline sentiment timestamp explanation link].
  - reflexivity.
  - destruct lk; reflexivity.
Qed.

(** On results that have the declared type, [exportResults] as the program
    runs it produces what it produces at that type: no TypeError, nothing
    for no results, and otherwise the same text. *)
Theorem export_agrees_on_typed_results (ms : list MappedResult)
  (rs : list AnalysisResult) :
  Forall2 (fun m r => asAnalysisResult m = Some r) ms rs ->
  exportMapped ms = Some (exportResults rs).
Proof.
  intros H. destruct H as [|m r ms rs Hm Hrest]; [reflexivity|].
  assert (Hall : Forall2 (fun m r => asAnalysisResult m = Some r) (m :: ms) (r :: rs))
    by now constructor.
  unfold exportMapped, exportResults.
  rewrite (traverse_Forall2 mappedRow (fun r => map JString (csvRow r)) _ _ _
             mappedRow_typed Hall).
  rewrite <- (map_map csvRow (map JString)).
  change (map JString csvHeader :: map (map JString) (map csvRow (r :: rs)))
    with (map (map JString) (csvRows (r :: rs))).
  rewrite (traverse_map_some joinArray (map JString)
             (String.concat (String comma EmptyString)) _ joinArray_strings).
  reflexivity.
Qed.

(** One result whose headline or explanation is not a string makes the
    export throw: no file is produced for any of the results. *)
Theorem export_throws_on_non_string (ms : list MappedResult) (m : MappedResult) :
  In m ms ->
  (forall s, m_headline m <> JString s) \/ (forall s, m_explanation m <> JString s) ->
  exportMapped ms = None.
Proof.
  intros Hin Hbad.
  assert (Hrow : mappedRow m = None).
  { unfold mappedRow, quoteValue. destruct Hbad as [Hh | He].
    - destruct (m_headline m) as [| | | |h| | |]; try reflexivity.
      exfalso. now apply (Hh h).
    - destruct (m_headline m) as [| | | |h| | |]; try reflexivity.
      destruct (m_explanation m) as [| | | |ex| | |]; try reflexivity.
      exfalso. now apply (He ex). }
  unfold exportMapped. destruct ms as [|m0 ms]; [contradiction|].
  now rewrite (traverse_none mappedRow _ m Hin Hrow).
Qed.

End RunTimeExportFacts.

(** An article without title passes the normalisation and then breaks the
    export of the whole result set. *)
Example untitled_article_breaks_export :
  mapArticles (E := exampleEngine) exampleTick 0 [teslaArticle; untitledArticle]
  = Some [{| m_headline := JString "Tesla stock crashes 15%";
             m_sentiment := JString "negative"; m_timestamp := ValidDate 1000;
             m_explanation := JString "Polarity score: -0.812";
             m_link := JUndefined |}; untitledRecord] /\
  exportMapped (E := exampleEngine)
    [{| m_headline := JString "Tesla stock crashes 15%";
        m_sentiment := JString "negative"; m_timestamp := ValidDate 1000;
        m_explanation := JString "Polarity score: -0.812";
        m_link := JUndefined |}; untitledRecord] = None.
Proof. split; reflexivity. Qed.

Lemma export_agrees_witness :
  exportMapped (E := exampleEngine) [teslaRecord]
  = Some (exportResults (E := exampleEngine)
            [{| headline := "Tesla stock crashes 15%"; sentiment := Some negative;
                timestamp := ValidDate 1001;
                explanation := "Polarity score: -0.812"; link := None |}]).
Proof.
  apply (export_agrees_on_typed_results (E := exampleEngine) [teslaRecord]).
  repeat constructor.
Defined.

Lemma export_throws_witness :
  exportMapped (E := exampleEngine) [teslaRecord; untitledRecord] = None.
Proof.
  apply (export_throws_on_non_string (E := exampleEngine)
           [teslaRecord; untitledRecord] untitledRecord).
  - right. left. reflexivity.
  - left. intros s. discriminate.
Defined.

(* ================================================================= *)
(** ** The filter and the badge on the results the state holds *)

Lemma knownLabel_name (v : JSValue) (x : Sentiment) :
  knownLabel v = Some x <-> v = JString (sentimentName x).
Proof.
  unfold knownLabel. split.
  - destruct v as [| | | |s| | |]; simpl; try discriminate.
    destruct (String.eqb_spec s "positive") as [->|];
      [intros H; injection H as <-; reflexivity|].
    destruct (String.eqb_spec s "negative") as [->|];
      [intros H; injection H as <-; reflexivity|].
    destruct (String.eqb_spec s "neutral") as [->|];
      [intros H; injection H as <-; reflexivity|discriminate].
  - intros ->. destruct x; reflexivity.
Qed.

(** A sentiment filter keeps exactly the results labelled with its
    sentiment; a result whose label is none of the three, one kept from a
    misspelled payload included, is shown under the filter all only.  On a
    result of the declared type this is the filter of the view. *)
Theorem filter_on_mapped_results (f : Filter) (m : MappedResult) :
  (keepsMapped f m = true <->
   f = all \/ exists x, f = only x /\ knownLabel (m_sentiment m) = Some x) /\
  (knownLabel (m_sentiment m) = None -> (keepsMapped f m = true <-> f = all)) /\
  (forall r, asAnalysisResult m = Some r -> keepsMapped f m = keeps f r).
Proof.
  assert (Hmain : keepsMapped f m = true <->
                  f = all \/ exists x, f = only x /\ knownLabel (m_sentiment m) = Some x).
  { destruct f as [|s]; simpl.
    - split; auto.
    - split.
      + intros H. right. exists s. split; [reflexivity|].
        apply knownLabel_name.
        destruct (m_sentiment m) as [| | | |x| | |]; try discriminate.
        apply String.eqb_eq in H. now subst.
      + intros [H | (x & Hx & Hk)]; [discriminate|].
        injection Hx as <-. apply knownLabel_name in Hk. rewrite Hk.
        apply String.eqb_refl. }
  split; [exact Hmain|]. split.
  - intros Hnone. rewrite Hmain. split; [|auto].
    intros [H | (x & _ & Hk)]; [exact H|congruence].
  - intros r Hr. unfold asAnalysisResult in Hr.
    destruct (m_headline m) as [| | | |h| | |]; try discriminate.
    destruct (asSentimentType (m_sentiment m)) as [sx|] eqn:Hs; [|discriminate].
    destruct (m_explanation m) as [| | | |ex| | |]; try discriminate.
    destruct (match m_link m with
              | JUndefined => Some None
              | JString s1 => Some (Some s1)
              | _ => None
              end); [|discriminate].
    injection Hr as <-. destruct f as [|s]; [reflexivity|]. simpl.
    destruct sx as [x|].
    + assert (Hk : knownLabel (m_sentiment m) = Some x)
        by (unfold knownLabel; now rewrite Hs).
      apply knownLabel_name in Hk. rewrite Hk.
      destruct x, s; reflexivity.
    + destruct (m_sentiment m) as [| | | |x| | |]; simpl in Hs; try discriminate;
        try reflexivity.
      destruct (String.eqb x "positive"); [discriminate|].
      destruct (String.eqb x "negative"); [discriminate|].
      destruct (String.eqb x "neutral"); discriminate.
Qed.

(** The badge of a result has the colour named after its label and an icon
    exactly when the label is one of the three; any other sentiment, absent
    or foreign, gets the colour muted and no icon. *)
Theorem colour_and_icon_follow_label (v : JSValue) :
  (forall x, knownLabel v = Some x ->
             getSentimentColor v = sentimentName x /\
             getSentimentIcon v = Some (match x with
                                        | positive => TrendingUp
                                        | negative => TrendingDown
                                        | neutral => Minus
                                        end)) /\
  (knownLabel v = None ->
   getSentimentColor v = "muted" /\ getSentimentIcon v = None) /\
  (getSentimentIcon v = None <-> getSentimentColor v = "muted").
Proof.
  split; [|split].
  - intros x Hx. apply knownLabel_name in Hx. subst v. destruct x; split; reflexivity.
  - unfold knownLabel. destruct v as [| | | |s| | |]; simpl; auto.
    destruct (String.eqb s "positive"); [discriminate|].
    destruct (String.eqb s "negative"); [discriminate|].
    destruct (String.eqb s "neutral"); [discriminate|]. auto.
  - destruct v as [| | | |s| | |]; simpl; try (split; reflexivity).
    destruct (String.eqb s "positive"); [split; discriminate|].
    destruct (String.eqb s "negative"); [split; discriminate|].
    destruct (String.eqb s "neutral"); [split; discriminate|].
    split; reflexivity.
Qed.

(* ================================================================= *)
(** ** The view is what every stable sort gives *)






(* ================================================================= *)
(** ** The rows of the exported text *)

Lemma readCsv_plain_more (s : string) : forall st field row rows rest,
  plain s = true ->
  st = FieldStart \/ st = Unquoted ->
  exists st' field' more,
    (st' = FieldStart \/ st' = Unquoted) /\
    readCsv st field row rows (s ++ rest)
    = readCsv st' field' (more ++ row)%list rows rest.
Proof.
  induction s as [|c s IH]; intros st field row rows rest Hp Hst.
  - exists st, field, []. auto.
  - simpl in Hp. apply andb_true_iff in Hp. destruct Hp as [Hc Hp].
    apply andb_true_iff in Hc. destruct Hc as [Hq Hn].
    apply negb_true_iff in Hq, Hn.
    simpl. rewrite Hn, Hq.
    destruct (Ascii.eqb c comma).
    + destruct (IH FieldStart "" (field :: row) rows rest Hp (or_introl eq_refl))
        as (st' & f' & more & Hst' & Heq).
      exists st', f', (more ++ [field])%list. split; [exact Hst'|].
      rewrite <- app_assoc. simpl.
      destruct Hst as [-> | ->]; exact Heq.
    + destruct (IH Unquoted (field ++ String c "") row rows rest Hp (or_intror eq_refl))
        as (st' & f' & more & Hst' & Heq).
      exists st', f', more. split; [exact Hst'|].
      destruct Hst as [-> | ->]; exact Heq.
Qed.

Lemma readCsv_plain_comma_more (s : string) field row rows rest :
  plain s = true ->
  exists more,
    readCsv FieldStart field row rows (s ++ String comma rest)
    = readCsv FieldStart "" (more ++ row)%list rows rest.
Proof.
  intros Hp.
  destruct (readCsv_plain_more s FieldStart field row rows (String comma rest) Hp
              (or_introl eq_refl)) as (st' & f' & more & Hst' & ->).
  exists (f' :: more). destruct Hst' as [-> | ->]; reflexivity.
Qed.

Section ExportRows.
Context {E : Engine}.

Let line (r : AnalysisResult) : string :=
  String.concat (String comma EmptyString) (csvRow r).

Let lines (rs : list AnalysisResult) : string :=
  String.concat (String newline EmptyString) (map line rs).

(** The fields read from a row whose unquoted fields are plain: the
    headline, the Sentiment field, whatever the commas of date, time and
    link make, and then the explanation. *)
Lemma plain_line_fields (r : AnalysisResult) (tail : string) rows :
  plainRecord r = true ->
  exists more,
    readCsv FieldStart "" [] rows (line r ++ tail)
    = readCsv FieldStart "" (more ++ [sentimentField r; headline r])%list rows
        (quoteField (explanation r) ++ tail).
Proof.
  unfold plainRecord. intros H.
  apply andb_true_iff in H. destruct H as [H Hl].
  apply andb_true_iff in H. destruct H as [Hd Ht].
  set (r3 := quoteField (explanation r) ++ tail).
  set (r2 := linkField r ++ String comma r3).
  set (r1 := toLocaleTimeString (timestamp r) ++ String comma r2).
  unfold line. rewrite line_text, readCsv_quoteField_comma.
  rewrite (readCsv_simple _ FieldStart) by (auto using sentimentField_simple).
  cbn [append]. fold r3. fold r2. fold r1.
  destruct (readCsv_plain_comma_more _ "" [sentimentField r; headline r] rows r1 Hd)
    as [m1 ->].
  unfold r1.
  destruct (readCsv_plain_comma_more _ "" (m1 ++ [sentimentField r; headline r])%list
              rows r2 Ht) as [m2 ->].
  unfold r2.
  destruct (readCsv_plain_comma_more _ ""
              (m2 ++ m1 ++ [sentimentField r; headline r])%list rows r3 Hl)
    as [m3 ->].
  exists (m3 ++ m2 ++ m1)%list. now rewrite <- !app_assoc.
Qed.

Lemma rev_row (e s h : string) (more : list string) :
  rev (e :: more ++ [s; h]) = (h :: s :: rev more ++ [e])%list.
Proof. simpl. rewrite rev_app_distr. reflexivity. Qed.

Lemma plain_line_newline (r : AnalysisResult) rows rest :
  plainRecord r = true ->
  exists row,
    startsRowOf r row /\
    readCsv FieldStart "" [] rows (line r ++ String newline rest)
    = readCsv FieldStart "" [] (row :: rows) rest.
Proof.
  intros Hp.
  destruct (plain_line_fields r (String newline rest) rows Hp) as [more ->].
  rewrite readCsv_quoteField_newline, rev_row.
  eexists. split; [|reflexivity]. eexists. reflexivity.
Qed.

Lemma plain_line_end (r : AnalysisResult) rows :
  plainRecord r = true ->
  exists row,
    startsRowOf r row /\
    readCsv FieldStart "" [] rows (line r) = (rev rows ++ [row])%list.
Proof.
  intros Hp. rewrite <- (append_empty (line r)).
  destruct (plain_line_fields r "" rows Hp) as [more ->].
  rewrite append_empty, readCsv_quoteField_end, rev_row.
  eexists. split; [|reflexivity]. eexists. reflexivity.
Qed.

(** One row is read for each record whose unquoted fields are plain. *)
Lemma plain_lines_rows (rs : list AnalysisResult) :
  forall rows,
    rs <> [] ->
    Forall (fun x => plainRecord x = true) rs ->
    exists read,
      Forall2 startsRowOf rs read /\
      readCsv FieldStart "" [] rows (lines rs) = (rev rows ++ read)%list.
Proof.
  induction rs as [|r rs IH]; intros rows Hne Hall; [congruence|].
  inversion Hall as [|? ? Hr Hrest]; subst.
  destruct rs as [|r' rs].
  - destruct (plain_line_end r rows Hr) as (row & Hrow & Hread).
    exists [row]. split; [repeat constructor; exact Hrow|].
    unfold lines. cbn [map String.concat]. exact Hread.
  - unfold lines.
    change (map line (r :: r' :: rs)) with (line r :: map line (r' :: rs)).
    rewrite concat_cons by discriminate. cbn [append].
    destruct (plain_line_newline r rows
                (String.concat (String newline EmptyString) (map line (r' :: rs))) Hr)
      as (row & Hrow & ->).
    destruct (IH (row :: rows)) as (read & Hread & Heq);
      [discriminate|exact Hrest|].
    exists (row :: read). split; [constructor; assumption|].
    unfold lines in Heq. rewrite Heq. simpl. now rewrite <- app_assoc.
Qed.

(** C10, as amended: for every non-empty record sequence whose Date, Time
    and Link texts hold no double quote and no line break, the exported CSV
    read back is exactly one header row, Headline, Sentiment, Date, Time,
    Link, Explanation, followed by exactly one row per record in the order
    of the sequence, each row starting with the record's headline and its
    Sentiment field, which is empty for a record without sentiment; when
    those texts hold no comma either, every row is the six values of its
    record, the Link field being empty for a record without link. *)
Theorem export_header_and_rows (rs : list AnalysisResult) :
  rs <> [] ->
  Forall (fun r => plainRecord r = true) rs ->
  exists csv read,
    exportResults rs = Some csv /\
    parseCsv csv
    = ["Headline"; "Sentiment"; "Date"; "Time"; "Link"; "Explanation"] :: read /\
    List.length read = List.length rs /\
    Forall2 startsRowOf rs read /\
    (Forall (fun r => simpleRecord r = true) rs ->
     read = map (fun r =>
                   [ headline r;
                     match sentiment r with Some s => sentimentName s | None => "" end;
                     toLocaleDateString (timestamp r);
                     toLocaleTimeString (timestamp r);
                     match link r with Some l => l | None => "" end;
                     explanation r ]) rs).
Proof.
  intros Hne Hplain.
  destruct (plain_lines_rows rs [csvHeader] Hne Hplain) as (read & Hread & Heq).
  exists (joinRows (csvRows rs)), read.
  assert (Hparse : parseCsv (joinRows (csvRows rs)) = csvHeader :: read).
  { rewrite (joinRows_text _ Hne), parseCsv_header. exact Heq. }
  split; [apply exportResults_nonempty; exact Hne|].
  split; [exact Hparse|].
  split; [symmetry; eapply Forall2_length; exact Hread|].
  split; [exact Hread|].
  intros Hsimple.
  assert (Hexact : parseCsv (joinRows (csvRows rs)) = csvHeader :: map rowValues rs).
  { rewrite (joinRows_text _ Hne), parseCsv_header.
    now rewrite readCsv_lines_simple. }
  rewrite Hparse in Hexact. injection Hexact as ->. reflexivity.
Qed.

End ExportRows.

(** C10, counterexample: a link with a line break in it, written without
    quotes, makes the export of one record read back as three rows, the
    header and two more. *)
Lemma line_break_in_link_adds_a_row :
  plainRecord (E := exampleEngine) brokenLinkRecord = false /\
  option_map parseCsv (exportResults (E := exampleEngine) [brokenLinkRecord])
  = Some [ csvHeader;
           ["Rates on hold"; "neutral"; "1704067200000"; "1704067200000"; "http://x/a"];
           ["b"; "Polarity score: 0.000"] ] /\
  option_map (fun csv => List.length (parseCsv csv))
    (exportResults (E := exampleEngine) [brokenLinkRecord])
  <> Some (S (List.length [brokenLinkRecord])).
Proof. repeat split. discriminate. Qed.

Lemma export_header_and_rows_witness :
  exists csv read,
    exportResults (E := exampleEngine) [bareRecord; quotedRecord] = Some csv /\
    parseCsv csv
    = ["Headline"; "Sentiment"; "Date"; "Time"; "Link"; "Explanation"] :: read /\
    List.length read = List.length [bareRecord; quotedRecord] /\
    Forall2 startsRowOf [bareRecord; quotedRecord] read /\
    (Forall (fun r => simpleRecord (E := exampleEngine) r = true)
       [bareRecord; quotedRecord] ->
     read = map (fun r =>
                   [ headline r;
                     match sentiment r with Some s => sentimentName s | None => "" end;
                     toLocaleDateString (Engine := exampleEngine) (timestamp r);
                     toLocaleTimeString (Engine := exampleEngine) (timestamp r);
                     match link r with Some l => l | None => "" end;
                     explanation r ]) [bareRecord; quotedRecord]).
Proof.
  apply (export_header_and_rows (E := exampleEngine) [bareRecord; quotedRecord]).
  - discriminate.
  - repeat constructor.
Defined.

(** A record without sentiment and without link, exported alone and read
    back: the Sentiment and Link fields are empty. *)
Example export_of_bare_record :
  option_map parseCsv (exportResults (E := exampleEngine) [bareRecord])
  = Some [ csvHeader;
           ["Markets, mixed"; ""; "Invalid Date"; "Invalid Date"; ""; "Polarity score: "] ].
Proof. reflexivity. Qed.
